(** * The blog server's query layer (tech-assignment-blog-server/index.mjs)

    A shallow embedding of the four Express handlers of [index.mjs]
    (GetAllCategories, GetPaginatedPosts, GetPaginatedPostsByCategory and
    GetPostById) over the module-level [posts] array, followed by the
    properties of the handlers.

    Modelling choices.

    - A post is a JavaScript object whose properties hold strings (the data
      model of the blog: id, uid, title, category, html, ... are all text).
      It is a finite map from property names to strings; an absent key is a
      property that reads as [undefined].
    - JavaScript strings are represented by their UTF-8 text.  [===] on two
      strings is then equality, and the JSON quoting below leaves every byte
      above 0x7F alone, as JSON.stringify does for every well-formed
      character outside ASCII.
    - [posts] is one array of objects shared by all requests.  The handlers
      receive references into it, and [delete post.html] acts on the shared
      object.  The store is the list of the objects' current contents, a
      reference is an index in it, and a handler is a state transformer on
      the store.
    - The route parameter [:page] reaches the arithmetic [(page - 1) * limit]
      through JavaScript's numeric coercion.  The handlers below take the
      number it denotes, an integer; the response echoes it. *)

From Stdlib Require Import ZArith Lia Ascii String.
From stdpp Require Import gmap strings list fin_maps pretty.

Local Open Scope Z_scope.

#[local] Set Warnings "-clear-no-such-hyp".

(** ** JavaScript primitives used by the handlers *)

Module Js.

(** Truthiness of what a property read returns: [undefined] and the empty
    string are falsy, every other string is truthy. *)
Definition truthy (v : option string) : bool :=
  match v with
  | None => false
  | Some s => negb (bool_decide (s = ""))
  end.

(** [a || b] where [b] is a string. *)
Definition or_else (a : option string) (b : string) : string :=
  match a with
  | Some s => if truthy a then s else b
  | None => b
  end.

(** [a === b] where [b] is a string: no coercion, [undefined] is not equal
    to any string. *)
Definition strict_eq (a : option string) (b : string) : bool :=
  bool_decide (a = Some b).

(** [Array.prototype.slice(start, end)] for integer arguments: a negative
    index counts from the end, and both bounds are clamped to the array. *)
Definition Array_slice {A} (a : list A) (start end_ : Z) : list A :=
  let len := Z.of_nat (length a) in
  let k := if decide (start < 0) then Z.max (len + start) 0
           else Z.min start len in
  let final := if decide (end_ < 0) then Z.max (len + end_) 0
               else Z.min end_ len in
  take (Z.to_nat (final - k)) (drop (Z.to_nat k) a).

(** [Math.ceil(a / b)] for a length [a] and a positive [b]. *)
Definition Math_ceil_div (a b : Z) : Z :=
  if decide (a mod b = 0) then a / b else a / b + 1.

(** [new Set(iterable)]: values are added in iteration order, a value
    already present is skipped, and the set iterates in insertion order.
    The set is represented by that iteration order. *)
Definition Set_add (s : list string) (v : string) : list string :=
  if bool_decide (v ∈ s) then s else s ++ [v].

Definition Set_new (iterable : list string) : list string :=
  foldl Set_add [] iterable.

(** [[...set]] *)
Definition spread (s : list string) : list string := s.

(** JSON.stringify on a string (QuoteJSONString): the text between double
    quotes, with the quote, the backslash and the control characters
    escaped. *)
Definition dquote : ascii := "034"%char.
Definition backslash : ascii := "092"%char.

Definition hex_digit (n : N) : ascii :=
  ascii_of_N (if (n <? 10)%N then 48 + n else 87 + n)%N.

Definition quote_char (c : ascii) : string :=
  let n := N_of_ascii c in
  if (n =? 8)%N then String backslash "b"
  else if (n =? 9)%N then String backslash "t"
  else if (n =? 10)%N then String backslash "n"
  else if (n =? 12)%N then String backslash "f"
  else if (n =? 13)%N then String backslash "r"
  else if (n =? 34)%N then String backslash (String dquote "")
  else if (n =? 92)%N then String backslash (String backslash "")
  else if (n <? 32)%N then
    String backslash
      (String "u" (String "0" (String "0"
        (String (hex_digit (n / 16)) (String (hex_digit (n mod 16)) "")))))
  else String c "".

Fixpoint quote_body (s : string) : string :=
  match s with
  | EmptyString => ""
  | String c s' => quote_char c +:+ quote_body s'
  end.

Definition QuoteJSONString (s : string) : string :=
  String dquote (quote_body s +:+ String dquote "").

(** [JSON.stringify(v)] for a property read: [undefined] gives
    [undefined]. *)
Definition JSON_stringify (v : option string) : option string :=
  QuoteJSONString <$> v.

End Js.

(** ** The post store and the handlers' monad *)

Abbreviation post := (gmap string string).

(** The contents of the objects of [posts], in the order of the dataset. *)
Abbreviation store := (list post).

(** A reference to an element of [posts]. *)
Abbreviation ref := nat.

(** A handler step: reads and updates the shared objects. *)
Definition M (A : Type) : Type := store → A * store.

Definition mret {A} (a : A) : M A := λ σ, (a, σ).

Definition mbind {A B} (m : M A) (k : A → M B) : M B :=
  λ σ, let '(a, σ') := m σ in k a σ'.

Notation "'let*' x ':=' m 'in' k" := (mbind m (λ x, k))
  (at level 10, x name, m at level 100, k at level 200, only parsing).

(** The array [posts]: one reference per stored object. *)
Definition get_posts : M (list ref) :=
  λ σ, (seq 0 (length σ), σ).

(** The current contents of the object behind a reference. *)
Definition deref (σ : store) (r : ref) : post := default ∅ (σ !! r).

(** [post.k] *)
Definition get_prop (σ : store) (r : ref) (k : string) : option string :=
  deref σ r !! k.

(** [delete post.html]: removes the property from the shared object. *)
Definition delete_html (r : ref) : M unit :=
  λ σ, (tt, alter (delete "html") r σ).

(** The callback [(post) => { delete post.html; return post; }]. *)
Definition strip_html (post : ref) : M ref :=
  let* _u := delete_html post in
  mret post.

(** [arr.map(f)] for a callback with effects, run left to right. *)
Fixpoint Array_mapM {A B} (f : A → M B) (arr : list A) : M (list B) :=
  match arr with
  | [] => mret []
  | x :: arr' =>
      let* y := f x in
      let* ys := Array_mapM f arr' in
      mret (y :: ys)
  end.

(** [arr.map(f)], [arr.filter(f)] and [arr.find(f)] for a callback that only
    reads the objects. *)
Definition Array_map {B} (f : store → ref → B) (arr : list ref) : M (list B) :=
  λ σ, (f σ <$> arr, σ).

Definition Array_filter (f : store → ref → bool) (arr : list ref)
  : M (list ref) :=
  λ σ, (List.filter (f σ) arr, σ).

Definition Array_find (f : store → ref → bool) (arr : list ref)
  : M (option ref) :=
  λ σ, (List.find (f σ) arr, σ).

(** ** Responses *)

(** The body of the two paginated responses;  [pg_category] is present on
    the category route only. *)
Record page_body := PageBody {
  pg_category : option string;
  pg_page : Z;
  pg_limit : Z;
  pg_totalPosts : Z;
  pg_totalPages : Z;
  pg_posts : list post
}.

Inductive body :=
| BCategories (categories : list string)
| BPage (b : page_body)
| BPost (p : post)
| BError (error : string).

Record response := Response { status : nat; payload : body }.

(** [res.json(v)] answers 200 with the serialisation of [v]; an object
    reached through a reference is serialised with the contents it has at
    that moment. *)
Definition res_json (b : body) : M response := mret (Response 200 b).

Definition serialise_posts (arr : list ref) : M (list post) :=
  Array_map deref arr.

(** ** The handlers *)

(** GET /categories *)
Definition GetAllCategories : M response :=
  let* posts := get_posts in
  let* names :=
    Array_map (λ σ post, Js.or_else (get_prop σ post "category")
                                    "Uncategorized") posts in
  let categories := Js.spread (Js.Set_new names) in
  res_json (BCategories categories).

(** GET /posts/page/:page.  The route matches a non-empty [:page] only, and
    a non-empty string is truthy: [req.params.page || 1] is the parameter. *)
Definition GetPaginatedPosts (page : Z) : M response :=
  let limit := 20 in
  let startIndex := (page - 1) * limit in
  let endIndex := startIndex + limit in
  let* posts := get_posts in
  let* paginatedPosts :=
    Array_mapM strip_html (Js.Array_slice posts startIndex endIndex) in
  let* out := serialise_posts paginatedPosts in
  res_json (BPage {| pg_category := None;
                     pg_page := page;
                     pg_limit := limit;
                     pg_totalPosts := Z.of_nat (length posts);
                     pg_totalPages :=
                       Js.Math_ceil_div (Z.of_nat (length posts)) limit;
                     pg_posts := out |}).

(** GET /posts/category/:category/page/:page *)
Definition GetPaginatedPostsByCategory (category : string) (page : Z)
  : M response :=
  let limit := 20 in
  let* posts := get_posts in
  let* filteredPosts :=
    Array_filter (λ σ post, Js.strict_eq (get_prop σ post "category") category)
                 posts in
  let startIndex := (page - 1) * limit in
  let endIndex := startIndex + limit in
  let paginatedPosts := Js.Array_slice filteredPosts startIndex endIndex in
  let* stripped := Array_mapM strip_html paginatedPosts in
  let* out := serialise_posts stripped in
  res_json (BPage {| pg_category := Some category;
                     pg_page := page;
                     pg_limit := limit;
                     pg_totalPosts := Z.of_nat (length filteredPosts);
                     pg_totalPages :=
                       Js.Math_ceil_div (Z.of_nat (length filteredPosts)) limit;
                     pg_posts := out |}).

(** [{ ...post, html: JSON.stringify(post.html) }] as [res.json] writes it:
    a property whose value is [undefined] is left out of the output. *)
Definition with_stringified_html (p : post) : post :=
  match Js.JSON_stringify (p !! "html") with
  | Some q => <["html" := q]> p
  | None => delete "html" p
  end.

(** GET /posts/:id *)
Definition GetPostById (id : string) : M response :=
  let* posts := get_posts in
  let* found := Array_find (λ σ p, Js.strict_eq (get_prop σ p "id") id) posts in
  match found with
  | None => mret (Response 404 (BError "Post not found"))
  | Some post =>
      let* p := (λ σ, (deref σ post, σ)) in
      res_json (BPost (with_stringified_html p))
  end.

(** ** Requests served one after the other on the same store *)

Inductive request :=
| ReqCategories
| ReqPage (page : Z)
| ReqCategoryPage (category : string) (page : Z)
| ReqPost (id : string).

Definition handle (q : request) : M response :=
  match q with
  | ReqCategories => GetAllCategories
  | ReqPage page => GetPaginatedPosts page
  | ReqCategoryPage category page => GetPaginatedPostsByCategory category page
  | ReqPost id => GetPostById id
  end.

Definition serve (qs : list request) : M (list response) :=
  Array_mapM handle qs.

(** The posts of a paginated response (none for the other bodies). *)
Definition posts_of (r : response) : list post :=
  match payload r with
  | BPage b => pg_posts b
  | _ => []
  end.

(** ** Sample data *)

Definition sample_post (id category html : string) : post :=
  <["id" := id]> (<["category" := category]> (<["html" := html]> ∅)).

Definition sample_store : store :=
  [ sample_post "1" "Tech" "<p>one</p>";
    <["id" := "2"]> (<["html" := "<p>two</p>"]> ∅);
    sample_post "3" "" "<p>three</p>";
    sample_post "4" "tech" "<p>four</p>";
    sample_post "5" "Tech" "<p>five</p>" ].

(** ** Vocabulary of the statements *)

(** A record without its [html] property. *)
Definition strip (p : post) : post := delete "html" p.

(** The store after [delete post.html] has run on the given references. *)
Definition strip_refs (rs : list ref) (σ : store) : store :=
  foldl (λ σ' r, alter strip r σ') σ rs.

(** The name a post is listed under by GET /categories. *)
Definition category_name (p : post) : string :=
  Js.or_else (p !! "category") "Uncategorized".

(** A post without a usable category: the property is missing or empty. *)
Definition uncategorised (p : post) : Prop :=
  p !! "category" = None ∨ p !! "category" = Some "".

(** The posts of a category, in the order of the store. *)
Definition in_category (c : string) (σ : store) : list post :=
  filter (λ p : post, p !! "category" = Some c) σ.

(** The window of a page: the elements of index [(page-1)*20] up to, and
    without, [page*20]. *)
Definition page_of {A} (l : list A) (page : Z) : list A :=
  Js.Array_slice l ((page - 1) * 20) ((page - 1) * 20 + 20).

(** The names of a list without repetition, each at the place where it is
    seen first. *)
Fixpoint first_seen (l : list string) : list string :=
  match l with
  | [] => []
  | x :: l' => x :: filter (λ y, y ≠ x) (first_seen l')
  end.

(** The body of a paginated response. *)
Definition page_body_of (r : response) : option page_body :=
  match payload r with
  | BPage b => Some b
  | _ => None
  end.

(** The pages 1, 2, ..., [n]. *)
Definition pages_upto (n : Z) : list Z := seqZ 1 n.

(** [q] is the record [p] with exactly the [html] property removed. *)
Definition html_removed (p q : post) : Prop :=
  q !! "html" = None ∧ ∀ k, k ≠ "html" → q !! k = p !! k.

(** A dataset of [n] posts with the ids 0, 1, ..., [n - 1]. *)
Definition numbered_store (n : nat) : store :=
  (λ i : nat, sample_post (pretty i) "Tech" "<p>body</p>") <$> seq 0 n.

(** The requests that answer lists: every route but GET /posts/:id. *)
Definition is_listing (q : request) : bool :=
  match q with
  | ReqPost _ => false
  | _ => true
  end.

(** [q] is the record [p], with or without its [html]. *)
Definition same_or_stripped (p q : post) : Prop := q = p ∨ q = strip p.

(** The category of a post is one of the names [cs]. *)
Definition category_among (cs : list string) (p : post) : Prop :=
  from_option (λ c, c ∈ cs) False (p !! "category").

#[global] Instance category_among_dec cs p : Decision (category_among cs p).
Proof. unfold category_among. destruct (p !! "category"); simpl; apply _. Defined.

#[global] Instance uncategorised_dec p : Decision (uncategorised p).
Proof. unfold uncategorised. apply _. Defined.

(** Reading back what [Js.QuoteJSONString] writes: the text up to the closing
    double quote, with the escapes [\b \t \n \f \r], backslash-quote,
    double backslash and [\u00XX] (two hexadecimal digits) undone.  [None]
    when the literal is not closed or an escape is not one of these. *)
Definition hex_value (c : ascii) : option N :=
  let n := N_of_ascii c in
  if ((48 <=? n) && (n <=? 57))%N then Some (n - 48)%N
  else if ((97 <=? n) && (n <=? 102))%N then Some (n - 87)%N
  else None.

Fixpoint read_quoted_body (s : string) : option string :=
  match s with
  | EmptyString => None
  | String c r =>
      if Ascii.eqb c Js.dquote then
        match r with EmptyString => Some EmptyString | _ => None end
      else if Ascii.eqb c Js.backslash then
        match r with
        | EmptyString => None
        | String e r' =>
            if Ascii.eqb e "b" then String "008" <$> read_quoted_body r'
            else if Ascii.eqb e "t" then String "009" <$> read_quoted_body r'
            else if Ascii.eqb e "n" then String "010" <$> read_quoted_body r'
            else if Ascii.eqb e "f" then String "012" <$> read_quoted_body r'
            else if Ascii.eqb e "r" then String "013" <$> read_quoted_body r'
            else if Ascii.eqb e Js.dquote
              then String Js.dquote <$> read_quoted_body r'
            else if Ascii.eqb e Js.backslash
              then String Js.backslash <$> read_quoted_body r'
            else if Ascii.eqb e "u" then
              match r' with
              | String z1 (String z2 (String h (String l r''))) =>
                  if Ascii.eqb z1 "0" && Ascii.eqb z2 "0" then
                    match hex_value h, hex_value l with
                    | Some hi, Some lo =>
                        String (ascii_of_N (16 * hi + lo))
                          <$> read_quoted_body r''
                    | _, _ => None
                    end
                  else None
              | _ => None
              end
            else None
        end
      else String c <$> read_quoted_body r
  end.

Definition read_quoted (s : string) : option string :=
  match s with
  | String c r => if Ascii.eqb c Js.dquote then read_quoted_body r else None
  | EmptyString => None
  end.

(** No character of the text is a control character (code below 32). *)
Fixpoint no_control (s : string) : bool :=
  match s with
  | EmptyString => true
  | String c r => (32 <=? N_of_ascii c)%N && no_control r
  end.

(** No character of the text is one that the quoting escapes. *)
Fixpoint plain_text (s : string) : bool :=
  match s with
  | EmptyString => true
  | String c r =>
      (32 <=? N_of_ascii c)%N
      && negb (Ascii.eqb c Js.dquote) && negb (Ascii.eqb c Js.backslash)
      && plain_text r
  end.

(** ** Examples *)

Example sample_categories :
  (GetAllCategories sample_store).1
  = Response 200 (BCategories ["Tech"; "Uncategorized"; "tech"]).
Proof. vm_compute. reflexivity. Qed.

Example sample_page_strips :
  GetPaginatedPosts 1 [sample_post "1" "Tech" "<p>one</p>"]
  = (Response 200
       (BPage (PageBody None 1 20 1 1
                 [<["id" := "1"]> (<["category" := "Tech"]> ∅)])),
     [<["id" := "1"]> (<["category" := "Tech"]> ∅)]).
Proof. vm_compute. reflexivity. Qed.

Example sample_quote :
  Js.QuoteJSONString "<p>hi</p>"
  = String Js.dquote ("<p>hi</p>" +:+ String Js.dquote "").
Proof. vm_compute. reflexivity. Qed.

Example sample_by_id :
  (GetPostById "4" sample_store).1
  = Response 200
      (BPost (<["html" := Js.QuoteJSONString "<p>four</p>"]>
                (sample_post "4" "tech" "<p>four</p>"))).
Proof. vm_compute. reflexivity. Qed.

Example sample_by_category :
  posts_of (GetPaginatedPostsByCategory "Tech" 1 sample_store).1
  = [ <["id" := "1"]> (<["category" := "Tech"]> ∅);
      <["id" := "5"]> (<["category" := "Tech"]> ∅) ].
Proof. vm_compute. reflexivity. Qed.

(** ** Running the monad *)

Section Monad.

Lemma mbind_run {A B} (m : M A) (k : A → M B) σ :
  mbind m k σ = k (m σ).1 (m σ).2.
Proof. unfold mbind. by destruct (m σ). Qed.

Lemma strip_idemp p : strip (strip p) = strip p.
Proof. unfold strip. apply map_eq. intros k.
  destruct (decide (k = "html")) as [->|Hk].
  - by rewrite !lookup_delete_eq.
  - by rewrite !lookup_delete_ne.
Qed.

Lemma strip_refs_cons r rs σ :
  strip_refs (r :: rs) σ = strip_refs rs (alter strip r σ).
Proof. reflexivity. Qed.

Lemma strip_html_run r σ : strip_html r σ = (r, alter strip r σ).
Proof. reflexivity. Qed.

Lemma Array_mapM_strip rs σ :
  Array_mapM strip_html rs σ = (rs, strip_refs rs σ).
Proof.
  revert σ. induction rs as [|r rs IH]; intros σ; [done|].
  cbn [Array_mapM]. rewrite mbind_run, strip_html_run. cbn [fst snd].
  rewrite mbind_run, IH. reflexivity.
Qed.

Lemma strip_refs_length rs σ : length (strip_refs rs σ) = length σ.
Proof.
  revert σ. induction rs as [|r rs IH]; intros σ; [done|].
  rewrite strip_refs_cons, IH. apply length_alter.
Qed.

Lemma strip_refs_lookup rs σ i :
  strip_refs rs σ !! i
  = if decide (i ∈ rs) then strip <$> σ !! i else σ !! i.
Proof.
  revert σ. induction rs as [|r rs IH]; intros σ.
  - cbn. case_decide as H; [by apply elem_of_nil in H|done].
  - rewrite strip_refs_cons, IH.
    destruct (decide (r = i)) as [->|Hne].
    + rewrite list_lookup_alter_eq.
      rewrite (decide_True (P := i ∈ i :: rs)) by apply list_elem_of_here.
      case_decide; [|done].
      destruct (σ !! i) as [p|]; [|done]. cbn. by rewrite strip_idemp.
    + rewrite list_lookup_alter_ne by done.
      case_decide as H1; case_decide as H2; try done.
      * exfalso. apply H2. by apply list_elem_of_further.
      * exfalso. apply H1. apply elem_of_cons in H2 as [->|]; done.
Qed.

Lemma strip_refs_fmap_strip rs σ :
  strip <$> strip_refs rs σ = strip <$> σ.
Proof.
  apply list_eq. intros i. rewrite !list_lookup_fmap, strip_refs_lookup.
  case_decide; [|done].
  destruct (σ !! i); [|done]. cbn. by rewrite strip_idemp.
Qed.

Lemma deref_strip_refs rs σ r :
  r ∈ rs → deref (strip_refs rs σ) r = strip (deref σ r).
Proof.
  intros Hr. unfold deref. rewrite strip_refs_lookup, decide_True by done.
  destruct (σ !! r); [done|]. cbn. unfold strip. by rewrite delete_empty.
Qed.

Lemma serialise_stripped rs σ :
  deref (strip_refs rs σ) <$> rs = strip <$> (deref σ <$> rs).
Proof.
  rewrite <- list_fmap_compose. apply list_fmap_ext. intros i r Hr.
  apply deref_strip_refs. by eapply list_elem_of_lookup_2.
Qed.

Lemma deref_all σ : deref σ <$> seq 0 (length σ) = σ.
Proof.
  apply list_eq. intros i. rewrite list_lookup_fmap.
  destruct (decide (i < length σ)%nat) as [Hi|Hi].
  - rewrite lookup_seq_lt by done. cbn. unfold deref.
    destruct (lookup_lt_is_Some_2 σ i Hi) as [p Hp]. by rewrite Hp.
  - rewrite lookup_seq_ge by lia. cbn. symmetry. apply lookup_ge_None. lia.
Qed.

End Monad.

(** ** Slices and pages *)

Section Slices.
Context {A : Type}.
Implicit Types l : list A.

Lemma Array_slice_fmap {B} (f : A → B) l s e :
  Js.Array_slice (f <$> l) s e = f <$> Js.Array_slice l s e.
Proof.
  unfold Js.Array_slice. rewrite length_fmap.
  by rewrite fmap_take, fmap_drop.
Qed.

Lemma Array_slice_length l s e :
  Z.of_nat (length (Js.Array_slice l s e))
  = let len := Z.of_nat (length l) in
    let k := if decide (s < 0) then Z.max (len + s) 0 else Z.min s len in
    let final := if decide (e < 0) then Z.max (len + e) 0 else Z.min e len in
    Z.max 0 (final - k).
Proof.
  unfold Js.Array_slice. cbn zeta.
  rewrite length_take, length_drop.
  repeat case_decide; lia.
Qed.

(** A page with a positive number is a window of twenty elements. *)
Lemma page_of_window l (n : nat) :
  page_of l (Z.of_nat (S n)) = take 20 (drop (20 * n) l).
Proof.
  unfold page_of, Js.Array_slice.
  do 2 (case_decide; [lia|]).
  set (s := (Z.of_nat (S n) - 1) * 20).
  assert (Hs : s = Z.of_nat (20 * n)) by lia. clearbody s. subst s.
  destruct (decide (20 * n + 20 ≤ length l)%nat) as [Hfull|Hpart].
  - rewrite !Z.min_l by lia. rewrite Nat2Z.id. f_equal. lia.
  - destruct (decide (20 * n ≤ length l)%nat) as [Hin|Hout].
    + rewrite Z.min_r, Z.min_l by lia. rewrite Nat2Z.id.
      rewrite (take_ge _ 20) by (rewrite length_drop; lia).
      apply take_ge. rewrite length_drop. lia.
    + rewrite !Z.min_r by lia. rewrite Nat2Z.id.
      rewrite drop_all, (drop_ge l (20 * n)) by lia.
      by rewrite !take_nil.
Qed.

(** The first [m] pages, one after the other, are the first [20 * m]
    elements. *)
Lemma pages_concat l (m : nat) :
  concat ((λ p, page_of l p) <$> pages_upto (Z.of_nat m)) = take (20 * m) l.
Proof.
  unfold pages_upto. induction m as [|m IH].
  - by rewrite Nat.mul_0_r, take_0.
  - rewrite seqZ_S, fmap_app, concat_app, IH. cbn [fmap list_fmap concat].
    rewrite app_nil_r.
    replace (1 + Z.of_nat m) with (Z.of_nat (S m)) by lia.
    rewrite page_of_window, take_take_drop. f_equal. lia.
Qed.

(** A negative page is a page counted from the end of the list. *)
Lemma page_of_negative l page :
  page < 0 → page_of l page = reverse (page_of (reverse l) (1 - page)).
Proof.
  intros Hp.
  replace (1 - page) with (Z.of_nat (S (Z.to_nat (- page)))) by lia.
  rewrite page_of_window, drop_reverse, take_reverse, reverse_involutive.
  rewrite length_take. unfold page_of, Js.Array_slice.
  do 2 (case_decide; [|lia]).
  rewrite take_drop_commute. f_equal; [lia|]. f_equal. lia.
Qed.

(** Page 0 is empty: its window ends where the list starts. *)
Lemma page_of_zero l : page_of l 0 = [].
Proof.
  apply length_zero_iff_nil.
  pose proof (Array_slice_length l ((0 - 1) * 20) ((0 - 1) * 20 + 20)) as H.
  cbn zeta in H. fold (page_of l 0) in H.
  repeat case_decide; lia.
Qed.

End Slices.

Lemma Math_ceil_div_spec (a b : Z) :
  0 ≤ a → 0 < b →
  b * (Js.Math_ceil_div a b - 1) < a ≤ b * Js.Math_ceil_div a b.
Proof.
  intros Ha Hb. unfold Js.Math_ceil_div.
  pose proof (Z.div_mod a b ltac:(lia)) as Hdm.
  pose proof (Z.mod_pos_bound a b Hb) as Hm.
  case_decide as H0; nia.
Qed.

Lemma Math_ceil_div_covers (n : nat) :
  (n ≤ 20 * Z.to_nat (Js.Math_ceil_div (Z.of_nat n) 20))%nat.
Proof.
  pose proof (Math_ceil_div_spec (Z.of_nat n) 20). lia.
Qed.

Lemma Math_ceil_div_nonneg (a b : Z) :
  0 ≤ a → 0 < b → 0 ≤ Js.Math_ceil_div a b.
Proof.
  intros Ha Hb. pose proof (Math_ceil_div_spec a b Ha Hb). nia.
Qed.

(** ** What each handler computes *)

Section Handlers.
Implicit Types (σ : store) (p : post) (rs : list ref).

Lemma filter_refs_category c σ rs :
  deref σ <$>
    List.filter (λ r, Js.strict_eq (get_prop σ r "category") c) rs
  = in_category c (deref σ <$> rs).
Proof.
  unfold in_category, get_prop, Js.strict_eq.
  induction rs as [|r rs IH]; [done|].
  cbn [List.filter]. rewrite fmap_cons, filter_cons.
  case_bool_decide; case_decide; try done.
  by rewrite fmap_cons, IH.
Qed.

Lemma find_refs (f : post → bool) σ rs :
  deref σ <$> List.find (λ r, f (deref σ r)) rs
  = List.find f (deref σ <$> rs).
Proof.
  induction rs as [|r rs IH]; [done|].
  cbn [List.find]. rewrite fmap_cons. cbn [List.find].
  by destruct (f (deref σ r)).
Qed.

Lemma GetAllCategories_run σ :
  GetAllCategories σ
  = (Response 200 (BCategories (Js.Set_new (category_name <$> σ))), σ).
Proof.
  unfold GetAllCategories. rewrite mbind_run. cbn [get_posts fst snd].
  rewrite mbind_run. unfold Array_map. cbn [fst snd].
  unfold res_json, mret, Js.spread. do 3 f_equal.
  rewrite <- (deref_all σ) at 2. rewrite <- list_fmap_compose.
  reflexivity.
Qed.

Lemma GetPaginatedPosts_run page σ :
  GetPaginatedPosts page σ
  = (Response 200
       (BPage {| pg_category := None;
                 pg_page := page;
                 pg_limit := 20;
                 pg_totalPosts := Z.of_nat (length σ);
                 pg_totalPages := Js.Math_ceil_div (Z.of_nat (length σ)) 20;
                 pg_posts := strip <$> page_of σ page |}),
     strip_refs (page_of (seq 0 (length σ)) page) σ).
Proof.
  unfold GetPaginatedPosts. cbn zeta.
  rewrite mbind_run. cbn [get_posts fst snd].
  rewrite mbind_run, Array_mapM_strip. cbn [fst snd].
  rewrite mbind_run. unfold serialise_posts, Array_map. cbn [fst snd].
  unfold res_json, mret. rewrite length_seq.
  rewrite serialise_stripped, <- Array_slice_fmap, deref_all.
  reflexivity.
Qed.

Lemma GetPaginatedPostsByCategory_run c page σ :
  GetPaginatedPostsByCategory c page σ
  = (Response 200
       (BPage {| pg_category := Some c;
                 pg_page := page;
                 pg_limit := 20;
                 pg_totalPosts := Z.of_nat (length (in_category c σ));
                 pg_totalPages :=
                   Js.Math_ceil_div (Z.of_nat (length (in_category c σ))) 20;
                 pg_posts := strip <$> page_of (in_category c σ) page |}),
     strip_refs
       (page_of (List.filter
                   (λ r, Js.strict_eq (get_prop σ r "category") c)
                   (seq 0 (length σ))) page) σ).
Proof.
  unfold GetPaginatedPostsByCategory. cbn zeta.
  rewrite mbind_run. cbn [get_posts fst snd].
  rewrite mbind_run. unfold Array_filter. cbn [fst snd].
  rewrite mbind_run, Array_mapM_strip. cbn [fst snd].
  rewrite mbind_run. unfold serialise_posts, Array_map. cbn [fst snd].
  unfold res_json, mret.
  rewrite serialise_stripped, <- Array_slice_fmap.
  pose proof (filter_refs_category c σ (seq 0 (length σ))) as Hf.
  rewrite deref_all in Hf.
  assert (Hlen : length (List.filter
                   (λ r, Js.strict_eq (get_prop σ r "category") c)
                   (seq 0 (length σ))) = length (in_category c σ))
    by (by rewrite <- Hf, length_fmap).
  rewrite Hlen, Hf. reflexivity.
Qed.

Lemma GetPostById_run id σ :
  GetPostById id σ
  = (match List.find (λ p, Js.strict_eq (p !! "id") id) σ with
     | Some p => Response 200 (BPost (with_stringified_html p))
     | None => Response 404 (BError "Post not found")
     end, σ).
Proof.
  unfold GetPostById. rewrite mbind_run. cbn [get_posts fst snd].
  rewrite mbind_run. unfold Array_find. cbn [fst snd].
  pose proof (find_refs (λ p, Js.strict_eq (p !! "id") id) σ
                (seq 0 (length σ))) as Hf.
  rewrite deref_all in Hf. rewrite <- Hf. unfold get_prop.
  destruct (List.find _ (seq 0 (length σ))) as [r|]; [|done].
  rewrite mbind_run. reflexivity.
Qed.

(** Only the paginated routes write to the store. *)
Lemma GetAllCategories_store σ : (GetAllCategories σ).2 = σ.
Proof. by rewrite GetAllCategories_run. Qed.

Lemma GetPostById_store id σ : (GetPostById id σ).2 = σ.
Proof. by rewrite GetPostById_run. Qed.

(** Whatever is served, the store keeps its size, and its records keep
    every property but [html]. *)
Lemma handle_store_stripped q σ :
  strip <$> (handle q σ).2 = strip <$> σ.
Proof.
  destruct q as [|page|c page|id]; cbn [handle].
  - by rewrite GetAllCategories_run.
  - rewrite GetPaginatedPosts_run. apply strip_refs_fmap_strip.
  - rewrite GetPaginatedPostsByCategory_run. apply strip_refs_fmap_strip.
  - by rewrite GetPostById_run.
Qed.

End Handlers.

(** ** The set of category names *)

Section FirstSeen.
Implicit Types (l acc : list string) (x y : string).

Lemma first_seen_elem_of l x : x ∈ first_seen l ↔ x ∈ l.
Proof.
  induction l as [|a l IH]; [done|].
  cbn [first_seen]. rewrite !elem_of_cons, list_elem_of_filter, IH.
  destruct (decide (x = a)); naive_solver.
Qed.

Lemma first_seen_NoDup l : NoDup (first_seen l).
Proof.
  induction l as [|a l IH]; [constructor|].
  cbn [first_seen]. apply NoDup_cons. split.
  - rewrite list_elem_of_filter. naive_solver.
  - by apply NoDup_filter.
Qed.

Lemma Set_new_from acc l :
  foldl Js.Set_add acc l
  = acc ++ filter (λ y, y ∉ acc) (first_seen l).
Proof.
  revert acc. induction l as [|a l IH]; intros acc.
  - cbn. by rewrite app_nil_r.
  - cbn [foldl first_seen]. rewrite IH. unfold Js.Set_add.
    case_bool_decide as Ha.
    + rewrite filter_cons_False by naive_solver.
      f_equal. rewrite list_filter_filter. apply list_filter_iff.
      intros y. naive_solver.
    + rewrite filter_cons_True by done.
      rewrite <- app_assoc. cbn [app]. do 2 f_equal.
      rewrite list_filter_filter. apply list_filter_iff.
      intros y. rewrite not_elem_of_app, list_elem_of_singleton.
      naive_solver.
Qed.

(** The insertion order of the set is the order of first occurrence. *)
Lemma Set_new_first_seen l : Js.Set_new l = first_seen l.
Proof.
  unfold Js.Set_new. rewrite Set_new_from. cbn [app].
  induction (first_seen l) as [|a k IH]; [done|].
  rewrite filter_cons_True by apply not_elem_of_nil. by rewrite IH.
Qed.

(** Filtering keeps the relative order of what it keeps. *)
Lemma filter_order (P : string → Prop) `{!∀ x, Decision (P x)}
    l i j x y :
  filter P l !! i = Some x → filter P l !! j = Some y → (i < j)%nat →
  ∃ i' j', (i' < j')%nat ∧ l !! i' = Some x ∧ l !! j' = Some y.
Proof.
  revert i j. induction l as [|a l IH]; intros i j Hi Hj Hlt; [done|].
  rewrite filter_cons in Hi, Hj. case_decide as Pa.
  - destruct i as [|i], j as [|j]; try lia.
    + cbn in Hi. injection Hi as ->.
      cbn in Hj. apply list_elem_of_lookup_2 in Hj.
      apply list_elem_of_filter in Hj as [_ Hj].
      apply list_elem_of_lookup_1 in Hj as [j' Hj'].
      exists 0%nat, (S j'). split; [lia|done].
    + cbn in Hi, Hj.
      destruct (IH i j Hi Hj ltac:(lia)) as (i' & j' & ? & ? & ?).
      exists (S i'), (S j'). split; [lia|done].
  - destruct (IH i j Hi Hj Hlt) as (i' & j' & ? & ? & ?).
    exists (S i'), (S j'). split; [lia|done].
Qed.

(** A name listed before another one is seen, in the input, before every
    occurrence of the other. *)
Lemma first_seen_order l i j x y :
  first_seen l !! i = Some x → first_seen l !! j = Some y → (i < j)%nat →
  ∃ n, l !! n = Some x ∧ ∀ m, l !! m = Some y → (n < m)%nat.
Proof.
  revert i j. induction l as [|a l IH]; intros i j Hi Hj Hlt; [done|].
  cbn [first_seen] in Hi, Hj.
  destruct j as [|j]; [lia|]. cbn in Hj.
  assert (Hya : y ≠ a).
  { apply list_elem_of_lookup_2, list_elem_of_filter in Hj. naive_solver. }
  destruct i as [|i].
  - cbn in Hi. injection Hi as ->. exists 0%nat. split; [done|].
    intros [|m] Hm; [|lia]. cbn in Hm. congruence.
  - cbn in Hi.
    destruct (filter_order _ _ _ _ _ _ Hi Hj ltac:(lia))
      as (i' & j' & Hlt' & Hi' & Hj').
    destruct (IH i' j' Hi' Hj' Hlt') as (n & Hn & Hall).
    exists (S n). split; [done|].
    intros [|m] Hm; cbn in Hm; [congruence|].
    specialize (Hall m Hm). lia.
Qed.

Lemma NoDup_occurs_once l x :
  NoDup l → x ∈ l → length (filter (λ y, y = x) l) = 1%nat.
Proof.
  induction 1 as [|a l Ha Hnd IH]; intros Hx; [by apply elem_of_nil in Hx|].
  rewrite filter_cons. case_decide as Hax.
  - subst a. cbn [length]. f_equal.
    destruct (filter (λ y, y = x) l) as [|z k] eqn:Hf; [done|].
    assert (Hz : z ∈ filter (λ y, y = x) l) by (rewrite Hf; left).
    apply list_elem_of_filter in Hz as [-> Hz]. done.
  - apply IH. apply elem_of_cons in Hx as [->|Hx]; done.
Qed.

End FirstSeen.

Section Categories.
Implicit Types (σ : store) (p : post).

Lemma category_name_uncategorised p :
  uncategorised p → category_name p = "Uncategorized".
Proof. intros [H|H]; unfold category_name; by rewrite H. Qed.

Lemma category_name_given p :
  ¬ uncategorised p → p !! "category" = Some (category_name p).
Proof.
  unfold uncategorised, category_name, Js.or_else, Js.truthy.
  intros H. destruct (p !! "category") as [s|]; [|naive_solver].
  case_bool_decide; [naive_solver|done].
Qed.

Lemma uncategorised_no_match p :
  uncategorised p → Js.strict_eq (p !! "category") "Uncategorized" = false.
Proof.
  intros [H|H]; unfold Js.strict_eq; rewrite H; by apply bool_decide_eq_false.
Qed.

Lemma in_category_elem_of c σ p :
  p ∈ in_category c σ ↔ p ∈ σ ∧ p !! "category" = Some c.
Proof. unfold in_category. rewrite list_elem_of_filter. naive_solver. Qed.

Lemma in_category_none c σ :
  (∀ p, p ∈ σ → p !! "category" ≠ Some c) → in_category c σ = [].
Proof.
  intros H. destruct (in_category c σ) as [|p k] eqn:E; [done|].
  assert (Hp : p ∈ in_category c σ) by (rewrite E; left).
  apply in_category_elem_of in Hp as [Hp Hc]. by destruct (H p Hp).
Qed.

End Categories.

(** ** Properties of the paginated routes *)

Section Pagination.
Implicit Types (σ : store) (p q : post).

Lemma strip_html_removed p : html_removed p (strip p).
Proof.
  split; unfold strip.
  - apply lookup_delete_eq.
  - intros k Hk. by apply lookup_delete_ne.
Qed.

Lemma html_removed_strip p q : html_removed p q → q = strip p.
Proof.
  intros [Hh Hk]. apply map_eq. intros k. unfold strip.
  destruct (decide (k = "html")) as [->|Hne].
  - by rewrite lookup_delete_eq.
  - rewrite lookup_delete_ne by done. by apply Hk.
Qed.

Lemma Forall2_html_removed (l : list post) :
  Forall2 html_removed l (strip <$> l).
Proof.
  induction l as [|p l IH]; [constructor|].
  rewrite fmap_cons. constructor; [apply strip_html_removed|done].
Qed.

Lemma posts_of_GetPaginatedPosts page σ :
  posts_of (GetPaginatedPosts page σ).1 = strip <$> page_of σ page.
Proof. by rewrite GetPaginatedPosts_run. Qed.

Lemma posts_of_GetPaginatedPostsByCategory c page σ :
  posts_of (GetPaginatedPostsByCategory c page σ).1
  = strip <$> page_of (in_category c σ) page.
Proof. by rewrite GetPaginatedPostsByCategory_run. Qed.

Lemma page_of_fmap {A B} (f : A → B) (l : list A) page :
  page_of (f <$> l) page = f <$> page_of l page.
Proof. apply Array_slice_fmap. Qed.

Lemma page_of_length {A} (l : list A) page :
  1 ≤ page →
  Z.of_nat (length (page_of l page))
  = Z.min 20 (Z.max 0 (Z.of_nat (length l) - (page - 1) * 20)).
Proof.
  intros Hp. unfold page_of. rewrite Array_slice_length. cbn zeta.
  repeat case_decide; lia.
Qed.

Lemma page_of_beyond {A} (l : list A) page :
  Z.of_nat (length l) ≤ (page - 1) * 20 → page_of l page = [].
Proof.
  intros Hp. apply length_zero_iff_nil.
  pose proof (Array_slice_length l ((page - 1) * 20) ((page - 1) * 20 + 20))
    as H. cbn zeta in H. fold (page_of l page) in H.
  repeat case_decide; lia.
Qed.

(** C3: every post of the [posts] array of GET /posts/page/:page and of
    GET /posts/category/:category/page/:page is the stored record at the
    same place of the page, with exactly the [html] property removed: the
    property is absent and every other property reads as in the store. *)
Theorem paginated_posts_strip_html σ c page :
  Forall2 html_removed (page_of σ page)
          (posts_of (GetPaginatedPosts page σ).1)
  ∧ Forall2 html_removed (page_of (in_category c σ) page)
            (posts_of (GetPaginatedPostsByCategory c page σ).1).
Proof.
  rewrite posts_of_GetPaginatedPosts, posts_of_GetPaginatedPostsByCategory.
  split; apply Forall2_html_removed.
Qed.

(** C4: for every page of number at least 1, the number of posts of the
    response of GET /posts/page/:page is
    min(limit, max(0, totalPosts - (page - 1) * limit)), with limit = 20 and
    totalPosts the size of the collection. *)
Theorem paginate_length σ page :
  1 ≤ page →
  ∃ b, page_body_of (GetPaginatedPosts page σ).1 = Some b
       ∧ pg_limit b = 20
       ∧ pg_totalPosts b = Z.of_nat (length σ)
       ∧ Z.of_nat (length (pg_posts b))
         = Z.min (pg_limit b)
                 (Z.max 0 (pg_totalPosts b - (page - 1) * pg_limit b)).
Proof.
  intros Hp. rewrite GetPaginatedPosts_run. eexists. split; [reflexivity|].
  cbn [pg_limit pg_totalPosts pg_posts]. repeat split.
  rewrite length_fmap. by apply page_of_length.
Qed.

Lemma paginate_length_witness :
  1 ≤ 2
  ∧ ∃ b, page_body_of (GetPaginatedPosts 2 (numbered_store 25)).1 = Some b
         ∧ pg_limit b = 20
         ∧ pg_totalPosts b = Z.of_nat (length (numbered_store 25))
         ∧ Z.of_nat (length (pg_posts b))
           = Z.min (pg_limit b)
                   (Z.max 0 (pg_totalPosts b - (2 - 1) * pg_limit b)).
Proof. split; [lia | apply (paginate_length (numbered_store 25) 2); lia]. Defined.

(** C6: whatever the page, the response of GET /posts/page/:page has
    totalPosts equal to the size of the collection and totalPages equal to
    the ceiling of totalPosts / 20 (the least count of pages of twenty that
    holds totalPosts); with 40 posts, page 3 has an empty posts array and
    totalPages is still 2. *)
Theorem paginate_totals σ page :
  ∃ b, page_body_of (GetPaginatedPosts page σ).1 = Some b
       ∧ pg_totalPosts b = Z.of_nat (length σ)
       ∧ pg_totalPages b = Js.Math_ceil_div (pg_totalPosts b) 20
       ∧ 20 * (pg_totalPages b - 1) < pg_totalPosts b ≤ 20 * pg_totalPages b
       ∧ (length σ = 40%nat → page = 3 →
          pg_posts b = [] ∧ pg_totalPages b = 2).
Proof.
  rewrite GetPaginatedPosts_run. eexists. split; [reflexivity|].
  cbn [pg_totalPosts pg_totalPages pg_posts].
  split; [done|]. split; [done|]. split.
  - apply Math_ceil_div_spec; lia.
  - intros Hlen ->. rewrite Hlen. split; [|done].
    rewrite page_of_beyond; [done|lia].
Qed.

Lemma paginate_totals_witness :
  ∃ b, page_body_of (GetPaginatedPosts 3 (numbered_store 40)).1 = Some b
       ∧ pg_totalPosts b = 40
       ∧ pg_posts b = [] ∧ pg_totalPages b = 2.
Proof.
  destruct (paginate_totals (numbered_store 40) 3)
    as (b & Hb & Htot & _ & _ & Hex).
  exists b. split; [exact Hb|]. split; [exact Htot|].
  apply Hex; reflexivity.
Defined.

(** C7: the response of GET /posts/category/:category/page/:page is computed
    over the posts whose [category] is exactly the requested string, in the
    order of the collection: totalPosts is their count, totalPages the
    ceiling of that count over 20, posts the page taken from them (each
    without its html), and the response carries the requested category.
    The page is pinned down for every page number: for a page of at least 1
    it is the twenty posts that follow the first (page - 1) * 20 of the
    category; page 0 is empty; a negative page -k is the twenty posts that
    precede the last 20 * k of the category. *)
Theorem paginate_by_category σ c page :
  ∃ b, page_body_of (GetPaginatedPostsByCategory c page σ).1 = Some b
       ∧ (∀ p, p ∈ in_category c σ ↔ p ∈ σ ∧ p !! "category" = Some c)
       ∧ in_category c σ `sublist_of` σ
       ∧ pg_totalPosts b = Z.of_nat (length (in_category c σ))
       ∧ pg_totalPages b = Js.Math_ceil_div (pg_totalPosts b) 20
       ∧ 20 * (pg_totalPages b - 1) < pg_totalPosts b ≤ 20 * pg_totalPages b
       ∧ pg_posts b = strip <$> page_of (in_category c σ) page
       ∧ pg_category b = Some c
       ∧ (1 ≤ page →
          pg_posts b
          = strip <$> take 20 (drop (Z.to_nat ((page - 1) * 20))
                                    (in_category c σ)))
       ∧ (page = 0 → pg_posts b = [])
       ∧ (page < 0 →
          pg_posts b
          = strip <$> reverse (take 20 (drop (Z.to_nat (- page * 20))
                                             (reverse (in_category c σ))))).
Proof.
  rewrite GetPaginatedPostsByCategory_run. eexists. split; [reflexivity|].
  cbn [pg_totalPosts pg_totalPages pg_posts pg_category].
  split; [apply in_category_elem_of|].
  split; [apply sublist_filter|].
  split; [done|]. split; [done|].
  split; [apply Math_ceil_div_spec; lia|].
  split; [done|]. split; [done|].
  split; [|split].
  - intros Hp. f_equal.
    replace page with (Z.of_nat (S (Z.to_nat (page - 1)))) at 1 by lia.
    rewrite page_of_window. do 2 f_equal. lia.
  - intros ->. by rewrite page_of_zero.
  - intros Hp. f_equal. rewrite page_of_negative by done. f_equal.
    replace (1 - page) with (Z.of_nat (S (Z.to_nat (- page)))) by lia.
    rewrite page_of_window. do 2 f_equal. lia.
Qed.

Lemma paginate_by_category_witness :
  ∃ b, page_body_of
         (GetPaginatedPostsByCategory "Tech" 2 (numbered_store 45)).1 = Some b
       ∧ pg_posts b
         = strip <$> take 20 (drop 20 (in_category "Tech" (numbered_store 45)))
       ∧ length (pg_posts b) = 20%nat.
Proof.
  destruct (paginate_by_category (numbered_store 45) "Tech" 2)
    as (b & Hb & _ & _ & _ & _ & _ & _ & _ & Hpos & _ & _).
  exists b. split; [exact Hb|].
  assert (H : pg_posts b
              = strip <$> take 20 (drop 20 (in_category "Tech"
                                              (numbered_store 45))))
    by (apply Hpos; lia).
  split; [exact H|]. rewrite H. vm_compute. reflexivity.
Defined.

End Pagination.

(** ** Requests in sequence *)

Section Sequences.
Implicit Types (σ : store) (p q : post).

Lemma Array_mapM_cons {A B} (f : A → M B) x l σ :
  Array_mapM f (x :: l) σ
  = ((f x σ).1 :: (Array_mapM f l (f x σ).2).1,
     (Array_mapM f l (f x σ).2).2).
Proof. cbn [Array_mapM]. by rewrite !mbind_run. Qed.

(** Serving leaves every record as it was, up to its [html]. *)
Lemma serve_store_stripped qs σ :
  strip <$> (serve qs σ).2 = strip <$> σ.
Proof.
  unfold serve. revert σ. induction qs as [|q qs IH]; intros σ; [done|].
  rewrite Array_mapM_cons. cbn [snd].
  by rewrite IH, handle_store_stripped.
Qed.

(** The pages served one after the other show the windows of the
    collection without [html], whatever the earlier requests removed. *)
Lemma serve_pages ps σ :
  posts_of <$> (serve (ReqPage <$> ps) σ).1
  = (λ page, page_of (strip <$> σ) page) <$> ps.
Proof.
  unfold serve. revert σ. induction ps as [|page ps IH]; intros σ; [done|].
  rewrite !fmap_cons, Array_mapM_cons. cbn [fst]. rewrite fmap_cons.
  rewrite IH. cbn [handle].
  rewrite posts_of_GetPaginatedPosts, page_of_fmap. f_equal.
  pose proof (handle_store_stripped (ReqPage page) σ) as Hs.
  cbn [handle] in Hs. by rewrite Hs.
Qed.

Lemma all_pages {A} (l : list A) :
  concat ((λ page, page_of l page)
            <$> pages_upto (Js.Math_ceil_div (Z.of_nat (length l)) 20))
  = l.
Proof.
  pose proof (Math_ceil_div_nonneg (Z.of_nat (length l)) 20) as Hn.
  rewrite <- (Z2Nat.id (Js.Math_ceil_div _ 20)) by lia.
  rewrite pages_concat. apply take_ge, Math_ceil_div_covers.
Qed.

(** C5: the posts arrays of GET /posts/page/p for p = 1, 2, ..., totalPages,
    put one after the other, are the posts of the collection, each exactly
    once and in the order of the dataset (each shown without its html).
    This holds for the requests served one after the other on the shared
    store, and for each request taken alone. *)
Theorem pages_cover_collection σ :
  let totalPages := Js.Math_ceil_div (Z.of_nat (length σ)) 20 in
  concat (posts_of <$> (serve (ReqPage <$> pages_upto totalPages) σ).1)
  = strip <$> σ
  ∧ concat ((λ page, posts_of (GetPaginatedPosts page σ).1)
              <$> pages_upto totalPages)
    = strip <$> σ.
Proof.
  cbn zeta. split.
  - rewrite serve_pages. rewrite <- (length_fmap strip σ). apply all_pages.
  - erewrite list_fmap_ext.
    2:{ intros i page _. rewrite posts_of_GetPaginatedPosts.
        rewrite <- page_of_fmap. reflexivity. }
    rewrite <- (length_fmap strip σ). apply all_pages.
Qed.

End Sequences.

Example pages_of_45_posts :
  length <$> (posts_of <$> (serve (ReqPage <$> [1; 2; 3; 4]) (numbered_store 45)).1)
  = [20; 20; 5; 0]%nat.
Proof. vm_compute. reflexivity. Qed.

(** ** JSON quoting *)

Section Quoting.
Implicit Types (s t : string).

Lemma append_length s t :
  String.length (s +:+ t) = (String.length s + String.length t)%nat.
Proof.
  induction s as [|c s IH]; [done|].
  change (S (String.length (s +:+ t))
          = S (String.length s + String.length t)).
  by rewrite IH.
Qed.

Lemma quote_char_length c : (1 ≤ String.length (Js.quote_char c))%nat.
Proof. unfold Js.quote_char. repeat case_match; cbn; lia. Qed.

Lemma quote_body_length s :
  (String.length s ≤ String.length (Js.quote_body s))%nat.
Proof.
  induction s as [|c s IH]; [done|].
  cbn [Js.quote_body String.length]. rewrite append_length.
  pose proof (quote_char_length c). lia.
Qed.

Lemma QuoteJSONString_length s :
  (String.length s + 2 ≤ String.length (Js.QuoteJSONString s))%nat.
Proof.
  unfold Js.QuoteJSONString. cbn [String.length].
  rewrite append_length. cbn [String.length].
  pose proof (quote_body_length s). lia.
Qed.

(** Quoting always changes the text. *)
Lemma QuoteJSONString_changes s : Js.QuoteJSONString s ≠ s.
Proof.
  intros H. pose proof (QuoteJSONString_length s) as Hl.
  rewrite H in Hl. lia.
Qed.

End Quoting.

(** ** Properties of the other routes *)

Section Lookup.
Implicit Types (σ : store) (p q : post).

Lemma with_stringified_html_other p k :
  k ≠ "html" → with_stringified_html p !! k = p !! k.
Proof.
  intros Hk. unfold with_stringified_html.
  destruct (Js.JSON_stringify (p !! "html")).
  - by rewrite lookup_insert_ne.
  - by rewrite lookup_delete_ne.
Qed.

Lemma with_stringified_html_html p h :
  p !! "html" = Some h →
  with_stringified_html p = <["html" := Js.QuoteJSONString h]> p.
Proof. intros H. unfold with_stringified_html. by rewrite H. Qed.

Lemma find_by_id_Some id σ p :
  List.find (λ p, Js.strict_eq (p !! "id") id) σ = Some p →
  p ∈ σ ∧ p !! "id" = Some id.
Proof.
  intros H. apply List.find_some in H as [Hin Heq].
  split; [by apply list_elem_of_In|].
  unfold Js.strict_eq in Heq. by apply bool_decide_eq_true in Heq.
Qed.

Lemma find_by_id_None id σ :
  List.find (λ p, Js.strict_eq (p !! "id") id) σ = None ↔
  ∀ p, p ∈ σ → p !! "id" ≠ Some id.
Proof.
  split.
  - intros H p Hp. apply list_elem_of_In in Hp.
    pose proof (List.find_none _ _ H p Hp) as Hf. cbn beta in Hf.
    unfold Js.strict_eq in Hf. by apply bool_decide_eq_false in Hf.
  - intros H.
    destruct (List.find _ σ) as [p|] eqn:E; [|done].
    apply find_by_id_Some in E as [Hin Hid]. by destruct (H p Hin).
Qed.

(** C8: GET /categories answers the category names of the collection without
    repetition and in the order in which they are first seen, a post whose
    category is missing or empty counting as "Uncategorized"; that name is
    listed exactly once however many such posts there are. *)
Theorem categories_unique_first_seen σ :
  ∃ cats,
    GetAllCategories σ = (Response 200 (BCategories cats), σ)
    ∧ cats = first_seen (category_name <$> σ)
    ∧ NoDup cats
    ∧ (∀ x, x ∈ cats ↔ ∃ p, p ∈ σ ∧ category_name p = x)
    ∧ (∀ i j x y,
         cats !! i = Some x → cats !! j = Some y → (i < j)%nat →
         ∃ n, (category_name <$> σ) !! n = Some x
              ∧ ∀ m, (category_name <$> σ) !! m = Some y → (n < m)%nat)
    ∧ (∀ p, uncategorised p → category_name p = "Uncategorized")
    ∧ (∀ p, ¬ uncategorised p → p !! "category" = Some (category_name p))
    ∧ ((∃ p, p ∈ σ ∧ uncategorised p) →
       length (filter (λ x, x = "Uncategorized") cats) = 1%nat).
Proof.
  exists (first_seen (category_name <$> σ)).
  split; [by rewrite GetAllCategories_run, Set_new_first_seen|].
  split; [done|]. split; [apply first_seen_NoDup|].
  split.
  { intros x. rewrite first_seen_elem_of, list_elem_of_fmap. naive_solver. }
  split; [intros i j x y; apply first_seen_order|].
  split; [apply category_name_uncategorised|].
  split; [apply category_name_given|].
  intros (p & Hp & Hu). apply NoDup_occurs_once; [apply first_seen_NoDup|].
  rewrite first_seen_elem_of, list_elem_of_fmap.
  exists p. by rewrite category_name_uncategorised.
Qed.

Lemma categories_unique_first_seen_witness :
  ∃ cats,
    GetAllCategories sample_store = (Response 200 (BCategories cats), sample_store)
    ∧ length (filter (λ x, x = "Uncategorized") cats) = 1%nat.
Proof.
  destruct (categories_unique_first_seen sample_store)
    as (cats & Hrun & _ & _ & _ & _ & _ & _ & Honce).
  exists cats. split; [exact Hrun|]. apply Honce.
  exists (sample_post "3" "" "<p>three</p>"). split.
  - do 2 right. left.
  - right. reflexivity.
Defined.

(** C9: GET /posts/:id answers 404 (post not found) exactly when no record
    of the collection has an [id] equal to the requested string; otherwise
    it answers 200 with a record whose [id] is the requested string. *)
Theorem get_by_id_not_found_iff σ id :
  (status (GetPostById id σ).1 = 404%nat
   ↔ ∀ p, p ∈ σ → p !! "id" ≠ Some id)
  ∧ (status (GetPostById id σ).1 = 404%nat
     ↔ payload (GetPostById id σ).1 = BError "Post not found")
  ∧ (status (GetPostById id σ).1 ≠ 404%nat
     ↔ ∃ q, (GetPostById id σ).1 = Response 200 (BPost q)
            ∧ q !! "id" = Some id).
Proof.
  rewrite GetPostById_run. cbn [fst].
  pose proof (find_by_id_None id σ) as Hnone.
  destruct (List.find _ σ) as [p|] eqn:E; cbn [status payload].
  - apply find_by_id_Some in E as [Hin Hid].
    split; [|split].
    + split; [done|]. intros H. by destruct (H p Hin).
    + split; done.
    + split; [|done]. intros _. eexists. split; [done|].
      by rewrite with_stringified_html_other.
  - split; [|split].
    + split; [intros _; by apply Hnone|done].
    + done.
    + split; [done|]. by intros (q & Hq & _).
Qed.

End Lookup.

Lemma get_by_id_not_found_iff_witness :
  status (GetPostById "9" sample_store).1 = 404%nat
  ∧ ∃ q, (GetPostById "4" sample_store).1 = Response 200 (BPost q)
         ∧ q !! "id" = Some "4".
Proof.
  split.
  - apply (proj2 (proj1 (get_by_id_not_found_iff sample_store "9"))).
    intros p Hp.
    repeat (apply elem_of_cons in Hp as [->|Hp]; [by vm_compute|]).
    by apply elem_of_nil in Hp.
  - apply (proj1 (proj2 (proj2 (get_by_id_not_found_iff sample_store "4")))).
    vm_compute. discriminate.
Defined.

(** C10: the name "Uncategorized" is given by GET /categories only.  A post
    whose category is missing or empty is not matched by the filter of
    GET /posts/category/Uncategorized/page/:page; when no stored category is
    literally "Uncategorized", that route answers totalPosts 0 and no posts,
    even though GET /categories lists "Uncategorized" as soon as one post
    has a missing or empty category. *)
Theorem uncategorized_only_in_listing (σ : store) (page : Z) :
  (∀ p : post, uncategorised p →
     Js.strict_eq (p !! "category") "Uncategorized" = false
     ∧ p ∉ in_category "Uncategorized" σ)
  ∧ ((∀ p : post, p ∈ σ → p !! "category" ≠ Some "Uncategorized") →
     (∃ b, page_body_of
             (GetPaginatedPostsByCategory "Uncategorized" page σ).1 = Some b
           ∧ pg_totalPosts b = 0 ∧ pg_posts b = [])
     ∧ ((∃ p : post, p ∈ σ ∧ uncategorised p) →
        ∃ cats, payload (GetAllCategories σ).1 = BCategories cats
                ∧ "Uncategorized" ∈ cats)).
Proof.
  split.
  - intros p Hu. split; [by apply uncategorised_no_match|].
    rewrite in_category_elem_of. intros [_ Hc].
    destruct Hu as [Hu|Hu]; congruence.
  - intros Hnone. split.
    + rewrite GetPaginatedPostsByCategory_run. eexists.
      split; [reflexivity|]. cbn [pg_totalPosts pg_posts].
      rewrite in_category_none by done. split; [done|].
      unfold page_of, Js.Array_slice. by rewrite drop_nil, take_nil.
    + intros (p & Hp & Hu). rewrite GetAllCategories_run. eexists.
      split; [reflexivity|].
      rewrite Set_new_first_seen, first_seen_elem_of, list_elem_of_fmap.
      exists p. by rewrite category_name_uncategorised.
Qed.

Lemma uncategorized_only_in_listing_witness :
  (∃ b, page_body_of
          (GetPaginatedPostsByCategory "Uncategorized" 1 sample_store).1
        = Some b
        ∧ pg_totalPosts b = 0 ∧ pg_posts b = [])
  ∧ ∃ cats, payload (GetAllCategories sample_store).1 = BCategories cats
            ∧ "Uncategorized" ∈ cats.
Proof.
  assert (Hnone : ∀ p : post,
             p ∈ sample_store → p !! "category" ≠ Some "Uncategorized").
  { intros p Hp.
    repeat (apply elem_of_cons in Hp as [->|Hp]; [by vm_compute|]).
    by apply elem_of_nil in Hp. }
  destruct (uncategorized_only_in_listing sample_store 1) as [_ H].
  destruct (H Hnone) as [Hpage Hcats].
  split; [exact Hpage|]. apply Hcats.
  exists (sample_post "3" "" "<p>three</p>"). split.
  - do 2 right. left.
  - right. reflexivity.
Defined.

(** ** The html of a post and the shared store *)

Lemma find_first_split (f : post → bool) (σ : store) (p : post) :
  List.find f σ = Some p →
  ∃ σ1 σ2, σ = σ1 ++ p :: σ2 ∧ ∀ p', p' ∈ σ1 → f p' = false.
Proof.
  induction σ as [|p0 σ IH]; [done|]. cbn [List.find].
  destruct (f p0) eqn:E.
  - intros [= ->]. exists [], σ. split; [done|].
    intros p' Hp'. by apply elem_of_nil in Hp'.
  - intros (σ1 & σ2 & -> & H1)%IH. exists (p0 :: σ1), σ2. split; [done|].
    intros p' [->|Hp']%elem_of_cons; [done|by apply H1].
Qed.

(** What GET /posts/:id answers for an id of the collection: 200 with the
    first record that carries the id, every property other than [html] as
    stored; when the record carries an [html], the answer's [html] is the
    JSON quotation of the stored text (the text between double quotes, with
    quotes, backslashes and control characters escaped), which is never the
    stored text itself.  The store is left as it was. *)
Lemma GetPostById_quotes_html (σ : store) (id : string) :
  (∃ p : post, p ∈ σ ∧ p !! "id" = Some id) →
  ∃ (p q : post) (σ1 σ2 : store),
    σ = σ1 ++ p :: σ2
    ∧ (∀ p', p' ∈ σ1 → p' !! "id" ≠ Some id)
    ∧ p !! "id" = Some id
    ∧ GetPostById id σ = (Response 200 (BPost q), σ)
    ∧ (∀ k, k ≠ "html" → q !! k = p !! k)
    ∧ (∀ h, p !! "html" = Some h →
         q !! "html" = Some (Js.QuoteJSONString h)
         ∧ Js.QuoteJSONString h ≠ h).
Proof.
  intros (p0 & Hin0 & Hid0). rewrite GetPostById_run.
  destruct (List.find _ σ) as [p|] eqn:E.
  - pose proof (find_by_id_Some _ _ _ E) as [Hin Hid].
    apply find_first_split in E as (σ1 & σ2 & Hσ & Hfirst).
    exists p, (with_stringified_html p), σ1, σ2.
    split; [done|]. split.
    { intros p' Hp'. specialize (Hfirst p' Hp'). cbn beta in Hfirst.
      unfold Js.strict_eq in Hfirst. by apply bool_decide_eq_false in Hfirst. }
    split; [done|]. split; [done|].
    split; [intros k; apply with_stringified_html_other|].
    intros h Hh. rewrite (with_stringified_html_html _ _ Hh).
    split; [apply lookup_insert_eq|apply QuoteJSONString_changes].
  - exfalso. by apply (proj1 (find_by_id_None id σ) E p0 Hin0).
Qed.

Lemma GetPostById_quotes_html_on_sample :
  ∃ (p q : post) (σ1 σ2 : store),
    sample_store = σ1 ++ p :: σ2
    ∧ (∀ p', p' ∈ σ1 → p' !! "id" ≠ Some "4")
    ∧ p !! "id" = Some "4"
    ∧ GetPostById "4" sample_store = (Response 200 (BPost q), sample_store)
    ∧ (∀ k, k ≠ "html" → q !! k = p !! k)
    ∧ (∀ h, p !! "html" = Some h →
         q !! "html" = Some (Js.QuoteJSONString h)
         ∧ Js.QuoteJSONString h ≠ h).
Proof.
  apply (GetPostById_quotes_html sample_store "4").
  exists (sample_post "4" "tech" "<p>four</p>"). split.
  - do 3 right. left.
  - reflexivity.
Defined.

(** C2 does not hold of the code: for the stored record of id 1 with the
    html <p>one</p>, GET /posts/1 answers 200 with every other property as
    stored, but its [html] is the stored markup encoded as a JSON string
    (between double quotes), not the stored markup that the documentation
    of the route shows in its example response. *)
Theorem GetPostById_double_encodes_html :
  let p := sample_post "1" "Tech" "<p>one</p>" in
  let σ := [p] in
  let quoted := String Js.dquote ("<p>one</p>" +:+ String Js.dquote "") in
  p ∈ σ ∧ p !! "id" = Some "1" ∧ p !! "html" = Some "<p>one</p>"
  ∧ GetPostById "1" σ = (Response 200 (BPost (<["html" := quoted]> p)), σ)
  ∧ quoted ≠ "<p>one</p>"
  ∧ ¬ ∃ q : post,
        payload (GetPostById "1" σ).1 = BPost q
        ∧ q !! "html" = p !! "html".
Proof.
  cbn zeta. split; [left|]. split; [reflexivity|]. split; [reflexivity|].
  split; [vm_compute; reflexivity|]. split; [discriminate|].
  intros (q & Hq & Hh). vm_compute in Hq.
  injection Hq as <-. vm_compute in Hh. discriminate Hh.
Qed.

(** C1 does not hold of the code: GET /posts/page/1 deletes the [html] of the
    stored record, the store after the request differs from the store
    before it, and a later GET /posts/1 answers without [html].  The
    category route does the same. *)
Theorem paginated_routes_delete_stored_html :
  let p := sample_post "1" "Tech" "<p>one</p>" in
  let σ := [p] in
  (serve [ReqPage 1] σ).2 = [strip p]
  ∧ (serve [ReqPage 1] σ).2 ≠ σ
  ∧ (serve [ReqCategoryPage "Tech" 1] σ).2 = [strip p]
  ∧ (serve [ReqPost "1"] σ).1
    = [Response 200
         (BPost (<["html" := Js.QuoteJSONString "<p>one</p>"]> p))]
  ∧ (serve [ReqPage 1; ReqPost "1"] σ).1 !! 1%nat
    = Some (Response 200 (BPost (strip p))).
Proof.
  cbn zeta. repeat split; try (vm_compute; reflexivity).
  vm_compute. discriminate.
Qed.

(** The routes that only read: the store after GET /categories and after
    GET /posts/:id is the store before. *)
Lemma reading_routes_keep_store (σ : store) (id : string) :
  (handle ReqCategories σ).2 = σ ∧ (handle (ReqPost id) σ).2 = σ.
Proof.
  split; cbn [handle];
    [apply GetAllCategories_store | apply GetPostById_store].
Qed.


(** * Further properties of the handlers *)

(** ** Pages outside 1 .. totalPages *)

Section EdgePages.
Implicit Types (σ : store) (p q : post).

Lemma strip_refs_nil σ : strip_refs [] σ = σ.
Proof. reflexivity. Qed.

Lemma page_of_at_most_20 {A} (l : list A) page :
  (length (page_of l page) ≤ 20)%nat.
Proof.
  pose proof (Array_slice_length l ((page - 1) * 20) ((page - 1) * 20 + 20))
    as H. cbn zeta in H. fold (page_of l page) in H.
  repeat case_decide; lia.
Qed.

Lemma page_of_sublist {A} (l : list A) page : page_of l page `sublist_of` l.
Proof.
  unfold page_of, Js.Array_slice.
  etrans; [apply sublist_take|apply sublist_drop].
Qed.

(** X1: a negative page number counts pages from the end of the collection:
    GET /posts/page/-k answers the posts of page k + 1 of the collection read
    backwards, in the order of the collection (each without its html). *)
Theorem negative_page_counts_from_end σ page :
  page < 0 →
  posts_of (GetPaginatedPosts page σ).1
  = strip <$> reverse (page_of (reverse σ) (1 - page)).
Proof.
  intros Hp. rewrite posts_of_GetPaginatedPosts. by rewrite page_of_negative.
Qed.

Lemma negative_page_counts_from_end_witness :
  -1 < 0
  ∧ posts_of (GetPaginatedPosts (-1) (numbered_store 45)).1
    = strip <$> reverse (page_of (reverse (numbered_store 45)) (1 - -1)).
Proof.
  split; [lia|].
  apply (negative_page_counts_from_end (numbered_store 45) (-1)). lia.
Defined.

Example negative_page_of_45_posts :
  (λ p : post, p !! "id") <$> posts_of (GetPaginatedPosts (-1) (numbered_store 45)).1
  = (λ i : nat, Some (pretty i)) <$> seq 5 20.
Proof. vm_compute. reflexivity. Qed.

(** X2: page 0 and every page after the last one answer 200 with the totals
    of the collection and no posts, and leave the store as it was. *)
Theorem page_out_of_range_is_empty σ page :
  page = 0 ∨ Js.Math_ceil_div (Z.of_nat (length σ)) 20 < page →
  GetPaginatedPosts page σ
  = (Response 200
       (BPage {| pg_category := None;
                 pg_page := page;
                 pg_limit := 20;
                 pg_totalPosts := Z.of_nat (length σ);
                 pg_totalPages := Js.Math_ceil_div (Z.of_nat (length σ)) 20;
                 pg_posts := [] |}),
     σ).
Proof.
  intros Hp. rewrite GetPaginatedPosts_run.
  assert (Hnil : ∀ A (l : list A), length l = length σ → page_of l page = []).
  { intros A l Hl. destruct Hp as [->|Hp]; [apply page_of_zero|].
    apply page_of_beyond. rewrite Hl.
    pose proof (Math_ceil_div_spec (Z.of_nat (length σ)) 20). lia. }
  rewrite !Hnil by (by rewrite ?length_seq). reflexivity.
Qed.

Lemma page_out_of_range_is_empty_witness :
  GetPaginatedPosts 4 (numbered_store 45)
  = (Response 200 (BPage (PageBody None 4 20 45 3 [])), numbered_store 45).
Proof.
  apply (page_out_of_range_is_empty (numbered_store 45) 4).
  right. vm_compute. reflexivity.
Defined.

(** X12: whatever the page number, positive or not, both paginated routes
    answer at most twenty posts, and these are posts of the collection (of
    the category) in the order of the collection, without their html. *)
Theorem at_most_twenty_posts σ c page :
  (length (posts_of (GetPaginatedPosts page σ).1) ≤ 20)%nat
  ∧ posts_of (GetPaginatedPosts page σ).1 `sublist_of` (strip <$> σ)
  ∧ (length (posts_of (GetPaginatedPostsByCategory c page σ).1) ≤ 20)%nat
  ∧ posts_of (GetPaginatedPostsByCategory c page σ).1
      `sublist_of` (strip <$> in_category c σ).
Proof.
  rewrite posts_of_GetPaginatedPosts, posts_of_GetPaginatedPostsByCategory.
  rewrite !length_fmap.
  repeat split; try apply page_of_at_most_20;
    apply fmap_sublist, page_of_sublist.
Qed.

End EdgePages.

(** ** What a request leaves in the store *)

Section Frame.
Implicit Types (σ : store) (p q : post) (qs : list request).

Lemma elem_of_page_refs (n : nat) page (i : nat) :
  1 ≤ page →
  i ∈ page_of (seq 0 n) page
  ↔ (page - 1) * 20 ≤ Z.of_nat i < page * 20 ∧ (i < n)%nat.
Proof.
  intros Hp.
  replace page with (Z.of_nat (S (Z.to_nat (page - 1)))) at 1 by lia.
  rewrite page_of_window, elem_of_take. split.
  - intros (j & Hj & Hlt). rewrite lookup_drop in Hj.
    apply lookup_seq in Hj as [-> ?]. lia.
  - intros [Hw Hn]. exists (i - 20 * Z.to_nat (page - 1))%nat.
    split; [|lia]. rewrite lookup_drop. apply lookup_seq. lia.
Qed.

Lemma paginated_store_lookup σ page (i : nat) :
  1 ≤ page →
  (GetPaginatedPosts page σ).2 !! i
  = if decide ((page - 1) * 20 ≤ Z.of_nat i < page * 20)
    then strip <$> σ !! i else σ !! i.
Proof.
  intros Hp. rewrite GetPaginatedPosts_run. cbn [snd].
  rewrite strip_refs_lookup.
  destruct (decide (i < length σ)%nat) as [Hi|Hi].
  - case_decide as H1; case_decide as H2; try done.
    + apply elem_of_page_refs in H1; [|done]. tauto.
    + exfalso. apply H1. by apply elem_of_page_refs.
  - rewrite (lookup_ge_None_2 σ i) by lia. by repeat case_decide.
Qed.

(** X3: after GET /posts/page/:page with a page number of at least 1, the
    stored records of index (page-1)*20 up to page*20 - 1 have lost their
    html and nothing else, and every other stored record is untouched; after
    GET /posts/category/:category/page/:page, every stored record of another
    category is untouched. *)
Theorem page_request_frame σ page c (i : nat) :
  (1 ≤ page →
   (GetPaginatedPosts page σ).2 !! i
   = if decide ((page - 1) * 20 ≤ Z.of_nat i < page * 20)
     then strip <$> σ !! i else σ !! i)
  ∧ (∀ p, σ !! i = Some p → p !! "category" ≠ Some c →
       (GetPaginatedPostsByCategory c page σ).2 !! i = Some p).
Proof.
  split; [apply paginated_store_lookup|].
  intros p Hp Hc. rewrite GetPaginatedPostsByCategory_run. cbn [snd].
  rewrite strip_refs_lookup, decide_False; [done|].
  intros Hin. apply (sublist_subseteq _ _ (page_of_sublist _ _)) in Hin.
  apply list_elem_of_In, List.filter_In in Hin as [_ Hm].
  unfold Js.strict_eq, get_prop, deref in Hm. rewrite Hp in Hm. cbn in Hm.
  by apply bool_decide_eq_true in Hm.
Qed.

Lemma page_request_frame_witness :
  (GetPaginatedPosts 2 (numbered_store 45)).2 !! 19%nat
  = numbered_store 45 !! 19%nat
  ∧ (GetPaginatedPosts 2 (numbered_store 45)).2 !! 20%nat
    = strip <$> numbered_store 45 !! 20%nat
  ∧ (GetPaginatedPostsByCategory "Tech" 1 sample_store).2 !! 3%nat
    = Some (sample_post "4" "tech" "<p>four</p>").
Proof.
  split; [|split].
  - rewrite (proj1 (page_request_frame (numbered_store 45) 2 "" 19)) by lia.
    rewrite decide_False by lia. reflexivity.
  - rewrite (proj1 (page_request_frame (numbered_store 45) 2 "" 20)) by lia.
    rewrite decide_True by lia. reflexivity.
  - apply (proj2 (page_request_frame sample_store 1 "Tech" 3));
      [reflexivity|]. vm_compute. discriminate.
Defined.

Lemma handle_lookup (rq : request) σ (i : nat) :
  (handle rq σ).2 !! i = σ !! i ∨ (handle rq σ).2 !! i = strip <$> σ !! i.
Proof.
  destruct rq as [|page|c page|id]; cbn [handle].
  - left. by rewrite GetAllCategories_run.
  - rewrite GetPaginatedPosts_run. cbn [snd]. rewrite strip_refs_lookup.
    case_decide; auto.
  - rewrite GetPaginatedPostsByCategory_run. cbn [snd].
    rewrite strip_refs_lookup. case_decide; auto.
  - left. by rewrite GetPostById_run.
Qed.

Lemma serve_lookup qs σ (i : nat) :
  (serve qs σ).2 !! i = σ !! i ∨ (serve qs σ).2 !! i = strip <$> σ !! i.
Proof.
  unfold serve. revert σ. induction qs as [|rq qs IH]; intros σ; [by left|].
  rewrite Array_mapM_cons. cbn [snd].
  destruct (IH (handle rq σ).2) as [->| ->];
    destruct (handle_lookup rq σ i) as [->| ->]; auto.
  right. destruct (σ !! i); [|done]. cbn. by rewrite strip_idemp.
Qed.

Lemma serve_length qs σ : length (serve qs σ).2 = length σ.
Proof.
  pose proof (serve_store_stripped qs σ) as H.
  apply (f_equal length) in H. by rewrite !length_fmap in H.
Qed.

Lemma serve_same_or_stripped qs σ :
  Forall2 same_or_stripped σ (serve qs σ).2.
Proof.
  apply Forall2_same_length_lookup_2; [by rewrite serve_length|].
  intros i p q Hp Hq. unfold same_or_stripped.
  destruct (serve_lookup qs σ i) as [H|H]; rewrite H, Hp in Hq; cbn in Hq;
    injection Hq as <-; auto.
Qed.

(** X4: whatever requests are served, the store keeps its number of
    records, and each record keeps every property other than [html] with its
    value; its [html] is either as before or gone, never changed and never
    put back. *)
Theorem requests_only_remove_html qs σ :
  length (serve qs σ).2 = length σ
  ∧ ∀ (i : nat) q, (serve qs σ).2 !! i = Some q →
      ∃ p, σ !! i = Some p
           ∧ (∀ k, k ≠ "html" → q !! k = p !! k)
           ∧ (q !! "html" = p !! "html" ∨ q !! "html" = None).
Proof.
  split; [apply serve_length|]. intros i q Hq.
  destruct (serve_lookup qs σ i) as [H|H]; rewrite H in Hq.
  - exists q. auto.
  - destruct (σ !! i) as [p|]; [|done]. cbn in Hq. injection Hq as <-.
    exists p. split; [done|]. destruct (strip_html_removed p) as [Hh Hk].
    split; [exact Hk|by right].
Qed.

Lemma requests_only_remove_html_witness :
  ∃ p, sample_store !! 0%nat = Some p
       ∧ (∀ k, k ≠ "html" → strip (sample_post "1" "Tech" "<p>one</p>") !! k = p !! k).
Proof.
  destruct (requests_only_remove_html [ReqCategories; ReqPage 1] sample_store)
    as [_ H].
  destruct (H 0%nat (strip (sample_post "1" "Tech" "<p>one</p>")))
    as (p & Hp & Hk & _).
  - vm_compute. reflexivity.
  - exists p. split; [exact Hp|exact Hk].
Defined.

End Frame.

(** ** Responses after earlier requests *)

Section History.
Implicit Types (σ : store) (p q : post) (qs : list request) (rq : request).

Lemma strip_lookup_other p k : k ≠ "html" → strip p !! k = p !! k.
Proof. intros Hk. unfold strip. by apply lookup_delete_ne. Qed.

Lemma category_name_strip p : category_name (strip p) = category_name p.
Proof. unfold category_name. by rewrite strip_lookup_other. Qed.

Lemma in_category_strip c σ :
  in_category c (strip <$> σ) = strip <$> in_category c σ.
Proof.
  unfold in_category. induction σ as [|p σ IH]; [done|].
  rewrite fmap_cons, !filter_cons, strip_lookup_other by done.
  case_decide; by rewrite ?fmap_cons, IH.
Qed.

Lemma strip_strip_fmap (l : list post) : strip <$> (strip <$> l) = strip <$> l.
Proof.
  rewrite <- list_fmap_compose. apply list_fmap_ext.
  intros i p _. apply strip_idemp.
Qed.

Lemma with_stringified_html_strip p : with_stringified_html (strip p) = strip p.
Proof.
  unfold with_stringified_html, strip. rewrite lookup_delete_eq. cbn.
  apply strip_idemp.
Qed.

(** The lists that are answered do not depend on the [html] in the store. *)
Lemma handle_listing_stripped rq σ :
  is_listing rq = true → (handle rq (strip <$> σ)).1 = (handle rq σ).1.
Proof.
  destruct rq as [|page|c page|id]; intros Hl; [| | |done]; cbn [handle].
  - rewrite !GetAllCategories_run. cbn [fst]. do 3 f_equal.
    rewrite <- list_fmap_compose. apply list_fmap_ext.
    intros i p _. apply category_name_strip.
  - rewrite !GetPaginatedPosts_run. cbn [fst].
    by rewrite length_fmap, page_of_fmap, strip_strip_fmap.
  - rewrite !GetPaginatedPostsByCategory_run. cbn [fst].
    by rewrite in_category_strip, length_fmap, page_of_fmap, strip_strip_fmap.
Qed.

(** X5: the answers of GET /categories and of both paginated routes do not
    depend on the requests served before: after any sequence of requests
    they are what they would have been on the store as loaded. *)
Theorem listings_ignore_history qs rq σ :
  is_listing rq = true →
  (handle rq (serve qs σ).2).1 = (handle rq σ).1.
Proof.
  intros Hl. rewrite <- (handle_listing_stripped rq (serve qs σ).2) by done.
  rewrite serve_store_stripped. by apply handle_listing_stripped.
Qed.

Lemma listings_ignore_history_witness :
  (handle (ReqCategoryPage "Tech" 1)
          (serve [ReqPage 1; ReqPost "4"; ReqCategories] sample_store).2).1
  = (handle (ReqCategoryPage "Tech" 1) sample_store).1.
Proof.
  apply (listings_ignore_history
           [ReqPage 1; ReqPost "4"; ReqCategories]
           (ReqCategoryPage "Tech" 1) sample_store).
  reflexivity.
Defined.

Lemma find_same_or_stripped (f : post → bool) (σ σ' : store) :
  (∀ p, f (strip p) = f p) →
  Forall2 same_or_stripped σ σ' →
  option_Forall2 same_or_stripped (List.find f σ) (List.find f σ').
Proof.
  intros Hf. induction 1 as [|p q σ σ' Hpq _ IH]; [constructor|].
  cbn [List.find].
  assert (Hq : f q = f p) by (destruct Hpq as [->| ->]; [done|apply Hf]).
  rewrite Hq. destruct (f p); [by constructor|exact IH].
Qed.

(** X6: earlier requests never change whether GET /posts/:id finds a post,
    nor any property of the answer other than [html]: the answer is either
    the one given on the store as loaded, or the found record without
    [html]. *)
Theorem get_by_id_after_requests qs σ id :
  (GetPostById id (serve qs σ).2).1 = (GetPostById id σ).1
  ∨ ∃ p, p ∈ σ ∧ p !! "id" = Some id
         ∧ (GetPostById id σ).1
           = Response 200 (BPost (with_stringified_html p))
         ∧ (GetPostById id (serve qs σ).2).1
           = Response 200 (BPost (strip p)).
Proof.
  rewrite !GetPostById_run. cbn [fst].
  assert (H : option_Forall2 same_or_stripped
                (List.find (λ p, Js.strict_eq (p !! "id") id) σ)
                (List.find (λ p, Js.strict_eq (p !! "id") id) (serve qs σ).2)).
  { apply find_same_or_stripped; [|apply serve_same_or_stripped].
    intros p. by rewrite strip_lookup_other. }
  destruct (List.find _ σ) as [p|] eqn:E;
    destruct (List.find _ (serve qs σ).2) as [q|]; inversion H as [? ? Hpq|];
    [|by left]. subst.
  apply find_by_id_Some in E as [Hin Hid].
  destruct Hpq as [->| ->]; [by left|right].
  exists p. by rewrite with_stringified_html_strip.
Qed.

(** X7: when ids are unique, GET /posts/:id served after the page that holds
    the post answers 200 with the record without its [html]. *)
Theorem get_by_id_after_its_page σ page (i : nat) p id :
  1 ≤ page →
  (page - 1) * 20 ≤ Z.of_nat i < page * 20 →
  σ !! i = Some p →
  p !! "id" = Some id →
  (∀ (j : nat) p', σ !! j = Some p' → p' !! "id" = Some id → j = i) →
  (GetPostById id (GetPaginatedPosts page σ).2).1
  = Response 200 (BPost (strip p)).
Proof.
  intros Hpage Hwin Hp Hid Huniq.
  assert (Hi : (GetPaginatedPosts page σ).2 !! i = Some (strip p)).
  { rewrite paginated_store_lookup, decide_True, Hp by done. done. }
  rewrite GetPostById_run. cbn [fst].
  destruct (List.find _ _) as [q|] eqn:E.
  - apply find_by_id_Some in E as [Hin Hq].
    apply list_elem_of_lookup_1 in Hin as [j Hj].
    assert (j = i) as ->.
    { rewrite paginated_store_lookup in Hj by done.
      destruct (σ !! j) as [p'|] eqn:Ej; [|by case_decide].
      apply (Huniq j p' Ej).
      case_decide; cbn in Hj; injection Hj as <-; [|done].
      by rewrite strip_lookup_other in Hq. }
    rewrite Hi in Hj. injection Hj as <-.
    by rewrite with_stringified_html_strip.
  - exfalso. apply (proj1 (find_by_id_None id _) E (strip p)).
    + by eapply list_elem_of_lookup_2.
    + by rewrite strip_lookup_other.
Qed.

Lemma get_by_id_after_its_page_witness :
  (GetPostById "4" (GetPaginatedPosts 1 sample_store).2).1
  = Response 200 (BPost (strip (sample_post "4" "tech" "<p>four</p>"))).
Proof.
  apply (get_by_id_after_its_page sample_store 1 3
           (sample_post "4" "tech" "<p>four</p>") "4");
    [lia | lia | reflexivity | reflexivity |].
  intros j p' Hj Hid.
  do 5 (destruct j as [|j]; [vm_compute in Hj; injection Hj as <-;
                             (reflexivity || (vm_compute in Hid; discriminate))|]).
  discriminate.
Defined.

End History.

(** ** Serving every page *)

Section EveryPage.
Implicit Types (σ : store) (p q : post) (qs : list request) (rq : request).

(** Listing requests served in sequence answer as each would alone. *)
Lemma serve_listings qs σ :
  Forall (λ rq, is_listing rq = true) qs →
  (serve qs σ).1 = (λ rq, (handle rq σ).1) <$> qs.
Proof.
  intros Hqs. revert σ.
  induction Hqs as [|rq qs Hrq Hqs IH]; intros σ; [done|].
  unfold serve. rewrite Array_mapM_cons. cbn [fst]. rewrite fmap_cons.
  f_equal. fold (serve qs (handle rq σ).2). rewrite IH.
  apply list_fmap_ext. intros i rq' Hi.
  apply Forall_lookup_1 with (i := i) (x := rq') in Hqs; [|done].
  rewrite <- (handle_listing_stripped rq' (handle rq σ).2) by done.
  rewrite handle_store_stripped. by apply handle_listing_stripped.
Qed.

(** X8: the posts arrays of GET /posts/category/c/page/p for
    p = 1, 2, ..., totalPages of that category, served one after the other,
    are the posts of the category, each exactly once and in the order of
    the collection (each without its html). *)
Theorem category_pages_cover σ c :
  let totalPages :=
    Js.Math_ceil_div (Z.of_nat (length (in_category c σ))) 20 in
  concat (posts_of
            <$> (serve (ReqCategoryPage c <$> pages_upto totalPages) σ).1)
  = strip <$> in_category c σ.
Proof.
  cbn zeta. rewrite serve_listings.
  2:{ apply Forall_fmap, Forall_true. done. }
  rewrite <- !list_fmap_compose.
  erewrite list_fmap_ext.
  2:{ intros i page _. cbn [compose handle].
      rewrite posts_of_GetPaginatedPostsByCategory, <- page_of_fmap.
      reflexivity. }
  rewrite <- (length_fmap strip (in_category c σ)). apply all_pages.
Qed.

Lemma serve_pages_store ps σ (i : nat) :
  (∃ page, page ∈ ps ∧ 1 ≤ page ∧ (page - 1) * 20 ≤ Z.of_nat i < page * 20) →
  (serve (ReqPage <$> ps) σ).2 !! i = strip <$> σ !! i.
Proof.
  revert σ. induction ps as [|page ps IH]; intros σ (pg & Hin & Hpg & Hwin).
  { by apply elem_of_nil in Hin. }
  rewrite fmap_cons. unfold serve. rewrite Array_mapM_cons. cbn [snd].
  fold (serve (ReqPage <$> ps) (handle (ReqPage page) σ).2).
  apply elem_of_cons in Hin as [->|Hin].
  - destruct (serve_lookup (ReqPage <$> ps) (handle (ReqPage page) σ).2 i)
      as [->| ->]; cbn [handle];
      rewrite paginated_store_lookup, decide_True by done; [done|].
    destruct (σ !! i); [|done]. cbn. by rewrite strip_idemp.
  - rewrite IH by eauto.
    destruct (handle_lookup (ReqPage page) σ i) as [->| ->]; [done|].
    destruct (σ !! i); [|done]. cbn. by rewrite strip_idemp.
Qed.

(** X16: once the pages 1, 2, ..., totalPages have been served, no stored
    record has an [html] any more (the store is the loaded one with every
    [html] removed), and every post that GET /posts/:id answers from then on
    lacks [html]. *)
Theorem all_pages_strip_the_store σ :
  let σ' := (serve (ReqPage <$> pages_upto
                      (Js.Math_ceil_div (Z.of_nat (length σ)) 20)) σ).2 in
  σ' = strip <$> σ
  ∧ ∀ id q, payload (GetPostById id σ').1 = BPost q → q !! "html" = None.
Proof.
  cbn zeta.
  assert (Hs : (serve (ReqPage <$> pages_upto
                  (Js.Math_ceil_div (Z.of_nat (length σ)) 20)) σ).2
               = strip <$> σ).
  { apply list_eq. intros i. rewrite list_lookup_fmap.
    destruct (decide (i < length σ)%nat) as [Hi|Hi].
    - apply serve_pages_store. exists (Z.of_nat i / 20 + 1).
      pose proof (Math_ceil_div_spec (Z.of_nat (length σ)) 20) as Hc.
      pose proof (Z.div_mod (Z.of_nat i) 20 ltac:(lia)) as Hd.
      pose proof (Z.mod_pos_bound (Z.of_nat i) 20 ltac:(lia)) as Hm.
      split; [|lia]. unfold pages_upto. apply elem_of_seqZ. nia.
    - rewrite (lookup_ge_None_2 σ i) by lia.
      apply lookup_ge_None_2. rewrite serve_length. lia. }
  split; [exact Hs|]. rewrite Hs. intros id q.
  rewrite GetPostById_run. cbn [fst].
  destruct (List.find _ _) as [p'|] eqn:E; [|done].
  apply find_by_id_Some in E as [Hin _].
  apply list_elem_of_fmap in Hin as (p & -> & _).
  rewrite with_stringified_html_strip. cbn [payload]. intros [= <-].
  apply strip_html_removed.
Qed.

End EveryPage.

(** ** The category listing and the category filter *)

Section CategoryRoutes.
Implicit Types (σ : store) (p q : post) (c : string) (cs : list string).

Lemma Math_ceil_div_zero : Js.Math_ceil_div 0 20 = 0.
Proof. reflexivity. Qed.

Lemma page_of_nil {A} page : page_of (@nil A) page = [].
Proof. unfold page_of, Js.Array_slice. by rewrite drop_nil, take_nil. Qed.

Lemma page_of_first {A} (l : list A) : page_of l 1 = take 20 l.
Proof. change 1 with (Z.of_nat 1). by rewrite (page_of_window l 0). Qed.

(** X9: a category that no stored post carries is not an error: the route
    answers 200 with totalPosts 0, totalPages 0 and no posts, whatever the
    page, and leaves the store as it was. *)
Theorem unknown_category_is_empty σ c page :
  (∀ p, p ∈ σ → p !! "category" ≠ Some c) →
  GetPaginatedPostsByCategory c page σ
  = (Response 200
       (BPage {| pg_category := Some c;
                 pg_page := page;
                 pg_limit := 20;
                 pg_totalPosts := 0;
                 pg_totalPages := 0;
                 pg_posts := [] |}),
     σ).
Proof.
  intros Hnone. rewrite GetPaginatedPostsByCategory_run.
  pose proof (filter_refs_category c σ (seq 0 (length σ))) as Hf.
  rewrite deref_all, in_category_none in Hf by done.
  apply fmap_nil_inv in Hf. rewrite Hf.
  by rewrite in_category_none, !page_of_nil.
Qed.

Lemma unknown_category_is_empty_witness :
  GetPaginatedPostsByCategory "TECH" 1 sample_store
  = (Response 200 (BPage (PageBody (Some "TECH") 1 20 0 0 [])), sample_store).
Proof.
  apply (unknown_category_is_empty sample_store "TECH" 1).
  intros p Hp.
  repeat (apply elem_of_cons in Hp as [->|Hp]; [by vm_compute|]).
  by apply elem_of_nil in Hp.
Defined.

Lemma category_name_not_empty p : category_name p ≠ "".
Proof.
  unfold category_name, Js.or_else, Js.truthy.
  destruct (p !! "category") as [s|]; [|done].
  case_bool_decide; [done|]. cbn. done.
Qed.

Lemma category_name_literal p c :
  c ≠ "" → p !! "category" = Some c → category_name p = c.
Proof.
  intros Hc Hp. unfold category_name, Js.or_else, Js.truthy. rewrite Hp.
  by rewrite bool_decide_eq_false_2.
Qed.

(** X10: the empty name is never listed by GET /categories, and a name other
    than "Uncategorized" is listed exactly when page 1 of that category has
    at least one post. *)
Theorem listed_categories_have_posts σ :
  ∃ cats,
    payload (GetAllCategories σ).1 = BCategories cats
    ∧ ("" ∉ cats)
    ∧ ∀ c, c ≠ "Uncategorized" → c ≠ "" →
        (c ∈ cats ↔ posts_of (GetPaginatedPostsByCategory c 1 σ).1 ≠ []).
Proof.
  rewrite GetAllCategories_run. eexists. split; [reflexivity|].
  rewrite Set_new_first_seen. split.
  - rewrite first_seen_elem_of, list_elem_of_fmap.
    intros (p & Hp & _). by destruct (category_name_not_empty p).
  - intros c Hc Hne.
    rewrite posts_of_GetPaginatedPostsByCategory, page_of_first.
    rewrite first_seen_elem_of, list_elem_of_fmap. split.
    + intros (p & -> & Hp).
      assert (Hcat : p !! "category" = Some (category_name p)).
      { apply category_name_given. intros Hu.
        by rewrite category_name_uncategorised in Hc. }
      assert (Hin : p ∈ in_category (category_name p) σ)
        by (by apply in_category_elem_of).
      destruct (in_category (category_name p) σ) as [|p0 l]; [|done].
      by apply elem_of_nil in Hin.
    + intros Hposts.
      destruct (in_category c σ) as [|p l] eqn:E; [done|].
      assert (Hin : p ∈ in_category c σ) by (rewrite E; left).
      apply in_category_elem_of in Hin as [Hin Hcat].
      exists p. split; [|done]. symmetry. by apply category_name_literal.
Qed.

Lemma listed_categories_have_posts_witness :
  ∃ cats,
    payload (GetAllCategories sample_store).1 = BCategories cats
    ∧ "tech" ∈ cats.
Proof.
  destruct (listed_categories_have_posts sample_store)
    as (cats & Hcats & _ & Hiff).
  exists cats. split; [exact Hcats|].
  apply (Hiff "tech"); [discriminate | discriminate |].
  vm_compute. discriminate.
Defined.

Lemma filter_length_disjoint (P Q : post → Prop)
    `{!∀ p, Decision (P p)} `{!∀ p, Decision (Q p)} (l : list post) :
  (∀ p, P p → Q p → False) →
  (length (filter P l) + length (filter Q l)
   = length (filter (λ p, P p ∨ Q p) l))%nat.
Proof.
  intros Hdis. induction l as [|p l IH]; [done|].
  rewrite !filter_cons.
  destruct (decide (P p)) as [HP|HP]; destruct (decide (Q p)) as [HQ|HQ].
  - by destruct (Hdis p).
  - rewrite decide_True by auto. cbn [length]. lia.
  - rewrite decide_True by auto. cbn [length]. lia.
  - rewrite decide_False by tauto. lia.
Qed.

Lemma in_category_sum cs σ :
  NoDup cs →
  sum_list ((λ c, length (in_category c σ)) <$> cs)
  = length (filter (category_among cs) σ).
Proof.
  induction 1 as [|c cs Hc Hnd IH].
  - cbn. symmetry. apply length_zero_iff_nil.
    induction σ as [|p σ IHσ]; [done|].
    rewrite filter_cons_False; [done|].
    unfold category_among. intros H.
    destruct (p !! "category"); cbn in H; [|done].
    by apply elem_of_nil in H.
  - rewrite fmap_cons. cbn [sum_list sum_list_with]. rewrite IH.
    unfold in_category, id. rewrite filter_length_disjoint.
    + f_equal. apply list_filter_iff. intros p. unfold category_among.
      destruct (p !! "category") as [s|]; cbn.
      * rewrite elem_of_cons. split.
        -- intros [[= ->]|H]; auto.
        -- intros [->|H]; auto.
      * split; [intros [?|[]]; done|intros []].
    + intros p Hp. unfold category_among. rewrite Hp. cbn. done.
Qed.

(** X11: the categories partition the posts that have one: the totalPosts
    of the category route, added over the names that GET /categories lists,
    plus the number of posts whose category is missing or empty, is the size
    of the collection. *)
Theorem category_totals_add_up σ :
  ∃ cats,
    payload (GetAllCategories σ).1 = BCategories cats
    ∧ (sum_list ((λ c, length (in_category c σ)) <$> cats)
       + length (filter uncategorised σ) = length σ)%nat
    ∧ ∀ c page b,
        page_body_of (GetPaginatedPostsByCategory c page σ).1 = Some b →
        pg_totalPosts b = Z.of_nat (length (in_category c σ)).
Proof.
  rewrite GetAllCategories_run. eexists. split; [reflexivity|].
  rewrite Set_new_first_seen. split.
  - rewrite in_category_sum by apply first_seen_NoDup.
    assert (Hiff : ∀ p, p ∈ σ →
              (category_among (first_seen (category_name <$> σ)) p
               ↔ ¬ uncategorised p)).
    { intros p Hp. unfold category_among. split.
      - intros Hc [Hu|Hu]; rewrite Hu in Hc; cbn in Hc; [done|].
        apply first_seen_elem_of, list_elem_of_fmap in Hc as (p' & He & _).
        by destruct (category_name_not_empty p').
      - intros Hu. rewrite (category_name_given p Hu). cbn.
        apply first_seen_elem_of, list_elem_of_fmap. eauto. }
    revert Hiff. generalize (first_seen (category_name <$> σ)). intros cs.
    induction σ as [|p σ IH]; intros Hiff; [done|].
    rewrite !filter_cons. cbn [length].
    specialize (IH (λ p' Hp', Hiff p' (list_elem_of_further _ _ _ Hp'))).
    pose proof (Hiff p (list_elem_of_here _ _)) as Hp.
    destruct (decide (category_among cs p)) as [Hc|Hc];
      destruct (decide (uncategorised p)) as [Hu|Hu]; cbn [length];
      try lia; tauto.
  - intros c page b. rewrite GetPaginatedPostsByCategory_run. cbn.
    by intros [= <-].
Qed.

(** X15: when several records carry the requested id, GET /posts/:id answers
    the one that comes first in the collection. *)
Theorem get_by_id_answers_first σ1 σ2 p id :
  (∀ p', p' ∈ σ1 → p' !! "id" ≠ Some id) →
  p !! "id" = Some id →
  (GetPostById id (σ1 ++ p :: σ2)).1
  = Response 200 (BPost (with_stringified_html p)).
Proof.
  intros Hnone Hid. rewrite GetPostById_run. cbn [fst].
  induction σ1 as [|p1 σ1 IH]; cbn [app List.find].
  - unfold Js.strict_eq. by rewrite Hid, bool_decide_eq_true_2.
  - unfold Js.strict_eq at 1. rewrite bool_decide_eq_false_2.
    + apply IH. intros p' Hp'. apply Hnone. by right.
    + apply Hnone. left.
Qed.

Lemma get_by_id_answers_first_witness :
  (GetPostById "7" ([sample_post "1" "Tech" "<p>one</p>"]
                     ++ sample_post "7" "a" "<p>first</p>"
                     :: [sample_post "7" "b" "<p>second</p>"])).1
  = Response 200
      (BPost (with_stringified_html (sample_post "7" "a" "<p>first</p>"))).
Proof.
  apply (get_by_id_answers_first [sample_post "1" "Tech" "<p>one</p>"]
           [sample_post "7" "b" "<p>second</p>"]
           (sample_post "7" "a" "<p>first</p>") "7").
  - intros p' Hp'. apply list_elem_of_singleton in Hp' as ->.
    vm_compute. discriminate.
  - reflexivity.
Defined.

End CategoryRoutes.

(** ** What the quoting of the html keeps *)

Section QuotingRoundTrip.
Implicit Types (s t r : string) (c : ascii) (p q : post).

Lemma append_assoc s t r : (s +:+ t) +:+ r = s +:+ (t +:+ r).
Proof.
  induction s as [|c s IH]; [done|].
  change (String c ((s +:+ t) +:+ r) = String c (s +:+ (t +:+ r))).
  by rewrite IH.
Qed.

Lemma read_quoted_body_char c r :
  read_quoted_body (Js.quote_char c +:+ r) = String c <$> read_quoted_body r.
Proof. destruct c as [[] [] [] [] [] [] [] []]; reflexivity. Qed.

Lemma read_quoted_body_quote s :
  read_quoted_body (Js.quote_body s +:+ String Js.dquote "") = Some s.
Proof.
  induction s as [|c s IH]; [done|].
  cbn [Js.quote_body]. by rewrite append_assoc, read_quoted_body_char, IH.
Qed.

Lemma read_quoted_QuoteJSONString s :
  read_quoted (Js.QuoteJSONString s) = Some s.
Proof. apply read_quoted_body_quote. Qed.

Lemma QuoteJSONString_inj s t :
  Js.QuoteJSONString s = Js.QuoteJSONString t → s = t.
Proof.
  intros H. apply (f_equal read_quoted) in H.
  rewrite !read_quoted_QuoteJSONString in H. by injection H.
Qed.

(** X13: the answer of GET /posts/:id loses nothing of the stored record:
    the quoting of the html can be read back, so two different markups are
    never quoted to the same text, and two different records never give the
    same answer. *)
Theorem get_by_id_answer_determines_record :
  (∀ s, read_quoted (Js.QuoteJSONString s) = Some s)
  ∧ (∀ s t, Js.QuoteJSONString s = Js.QuoteJSONString t → s = t)
  ∧ (∀ p q, with_stringified_html p = with_stringified_html q → p = q).
Proof.
  split; [apply read_quoted_QuoteJSONString|].
  split; [apply QuoteJSONString_inj|].
  intros p q H. apply map_eq. intros k.
  destruct (decide (k = "html")) as [->|Hk].
  - apply (f_equal (λ m : post, m !! "html")) in H. cbn beta in H.
    assert (Hl : ∀ m : post,
               with_stringified_html m !! "html"
               = Js.QuoteJSONString <$> m !! "html").
    { intros m. unfold with_stringified_html, Js.JSON_stringify.
      destruct (m !! "html"); cbn [fmap option_fmap option_map].
      - apply lookup_insert_eq.
      - apply lookup_delete_eq. }
    rewrite !Hl in H.
    destruct (p !! "html") as [h|], (q !! "html") as [h'|]; try done.
    change (Some (Js.QuoteJSONString h) = Some (Js.QuoteJSONString h')) in H.
    f_equal. apply QuoteJSONString_inj. congruence.
  - apply (f_equal (λ m : post, m !! k)) in H.
    by rewrite !with_stringified_html_other in H.
Qed.

Lemma append_no_control s t :
  no_control (s +:+ t) = no_control s && no_control t.
Proof.
  induction s as [|c s IH]; [done|].
  change (no_control (String c (s +:+ t))
          = no_control (String c s) && no_control t).
  cbn [no_control]. rewrite IH. by rewrite andb_assoc.
Qed.

Lemma quote_char_no_control c : no_control (Js.quote_char c) = true.
Proof. destruct c as [[] [] [] [] [] [] [] []]; reflexivity. Qed.

Lemma quote_body_no_control s : no_control (Js.quote_body s) = true.
Proof.
  induction s as [|c s IH]; [done|].
  cbn [Js.quote_body]. by rewrite append_no_control, quote_char_no_control, IH.
Qed.

Lemma quote_char_plain c :
  (32 <=? N_of_ascii c)%N
  && negb (Ascii.eqb c Js.dquote) && negb (Ascii.eqb c Js.backslash) = true →
  Js.quote_char c = String c "".
Proof.
  destruct c as [[] [] [] [] [] [] [] []]; intros H;
    first [reflexivity | by vm_compute in H].
Qed.

Lemma quote_body_plain s : plain_text s = true → Js.quote_body s = s.
Proof.
  induction s as [|c s IH]; [done|]. cbn [plain_text Js.quote_body].
  intros [Hc Hs]%andb_true_iff.
  by rewrite quote_char_plain, IH.
Qed.

(** X14: the quoted html holds no raw control character (no raw newline or
    tab: they are written as escapes), and a markup without double quotes,
    backslashes and control characters is quoted by putting it between
    double quotes, unchanged. *)
Theorem quoted_html_is_one_line s :
  no_control (Js.QuoteJSONString s) = true
  ∧ (plain_text s = true →
     Js.QuoteJSONString s = String Js.dquote (s +:+ String Js.dquote "")).
Proof.
  split.
  - unfold Js.QuoteJSONString. cbn [no_control].
    by rewrite append_no_control, quote_body_no_control.
  - intros Hs. unfold Js.QuoteJSONString. by rewrite quote_body_plain.
Qed.

Lemma quoted_html_is_one_line_witness :
  Js.QuoteJSONString "<p>one</p>"
  = String Js.dquote ("<p>one</p>" +:+ String Js.dquote "").
Proof.
  apply (quoted_html_is_one_line "<p>one</p>"). reflexivity.
Defined.

End QuotingRoundTrip.

Example quote_escapes :
  Js.QuoteJSONString (String "010" (String Js.dquote "a"))
  = String Js.dquote
      (String Js.backslash
         (String "n" (String Js.backslash (String Js.dquote
            (String "a" (String Js.dquote "")))))).
Proof. vm_compute. reflexivity. Qed.

(** ** Which records a page shows *)

Section PageContents.
Implicit Types (σ : store) (p q : post).

(** X17: for a page number of at least 1, the post at place i (from 0) of
    the answer of GET /posts/page/:page is the stored record number
    (page - 1) * 20 + i without its html, for i below 20; there is no post
    at place 20 or later. *)
Theorem page_post_by_index σ page (i : nat) :
  1 ≤ page →
  posts_of (GetPaginatedPosts page σ).1 !! i
  = if decide (i < 20)%nat
    then strip <$> σ !! (Z.to_nat ((page - 1) * 20) + i)%nat
    else None.
Proof.
  intros Hp. rewrite posts_of_GetPaginatedPosts, list_lookup_fmap.
  replace page with (Z.of_nat (S (Z.to_nat (page - 1)))) at 1 by lia.
  rewrite page_of_window. case_decide as Hi.
  - rewrite lookup_take_lt, lookup_drop by done. do 2 f_equal. lia.
  - by rewrite lookup_take_ge by lia.
Qed.

Lemma page_post_by_index_witness :
  1 ≤ 2
  ∧ posts_of (GetPaginatedPosts 2 (numbered_store 45)).1 !! 3%nat
    = strip <$> numbered_store 45 !! 23%nat.
Proof.
  split; [lia|].
  rewrite (page_post_by_index (numbered_store 45) 2 3) by lia.
  reflexivity.
Defined.

(** X18: every post that GET /posts/category/:category/page/:page answers
    carries exactly the requested category and is a stored record without
    its html, whatever the page. *)
Theorem category_page_only_has_category σ c page q :
  q ∈ posts_of (GetPaginatedPostsByCategory c page σ).1 →
  q !! "category" = Some c
  ∧ ∃ p, p ∈ σ ∧ q = strip p.
Proof.
  rewrite posts_of_GetPaginatedPostsByCategory.
  intros (p & -> & Hp)%list_elem_of_fmap.
  apply (sublist_subseteq _ _ (page_of_sublist _ _)) in Hp.
  apply in_category_elem_of in Hp as [Hin Hc].
  split; [by rewrite strip_lookup_other|eauto].
Qed.

Lemma category_page_only_has_category_witness :
  strip (sample_post "5" "Tech" "<p>five</p>") !! "category" = Some "Tech"
  ∧ ∃ p, p ∈ sample_store ∧ strip (sample_post "5" "Tech" "<p>five</p>") = strip p.
Proof.
  apply (category_page_only_has_category sample_store "Tech" 1).
  vm_compute. right. left.
Defined.

End PageContents.

(** ** Instances on the sample data *)

Lemma category_totals_add_up_witness :
  ∃ cats,
    payload (GetAllCategories sample_store).1 = BCategories cats
    ∧ (sum_list ((λ c, length (in_category c sample_store)) <$> cats)
       + length (filter uncategorised sample_store) = 5)%nat
    ∧ pg_totalPosts (PageBody (Some "Tech") 1 20 2 1
                       (posts_of (GetPaginatedPostsByCategory "Tech" 1
                                    sample_store).1))
      = Z.of_nat (length (in_category "Tech" sample_store)).
Proof.
  destruct (category_totals_add_up sample_store) as (cats & H1 & H2 & H3).
  exists cats. split; [exact H1|]. split; [exact H2|].
  apply (H3 "Tech" 1). vm_compute. reflexivity.
Defined.

Lemma get_by_id_answer_determines_record_witness :
  sample_post "4" "tech" "<p>four</p>" = sample_post "4" "tech" "<p>four</p>".
Proof.
  apply (proj2 (proj2 get_by_id_answer_determines_record)).
  reflexivity.
Defined.

Lemma all_pages_strip_the_store_witness :
  strip (sample_post "3" "" "<p>three</p>") !! "html" = None.
Proof.
  apply (proj2 (all_pages_strip_the_store sample_store) "3").
  vm_compute. reflexivity.
Defined.
